(** * voidcoin: the ledger engine of [chain/blockchain_client.py]

    A shallow embedding of the [Transaction] and [Blockchain] classes and
    the properties of their methods.

    The source is dynamically typed Python: blocks and transactions are
    dictionaries, peer chains are whatever a peer's JSON decodes to, and
    several methods fail with a run-time type error.  The embedding keeps
    that: Python objects are values of [pyval], an operation that can
    raise returns a [result], and a method that mutates [self] is a
    function from the object's state to an outcome and the new state (an
    exception keeps the mutations made before it was raised). *)

From Stdlib Require Import ZArith List String Ascii Bool Lia Floats.
Import ListNotations.
Local Open Scope string_scope.
Local Open Scope list_scope.
Local Open Scope Z_scope.

Set Implicit Arguments.
Set Warnings "-register-all".

(** ** Python values *)

(** The objects that flow through the module.  A [str] is carried as the
    text it holds and [bytes] as the bytes; [.encode()] of a [str] keeps
    the text (its UTF-8 encoding; text that has none, a lone surrogate,
    is left out).  Lengths and indices of a [str] count the bytes of
    that encoding, which are Python's characters for ASCII text, the
    text of addresses, hashes and keys.  A [float] is the binary64 number
    itself.  A dictionary
    is the list of its items in insertion order, keys being strings
    (every dictionary the module builds, and every JSON object, has
    string keys). *)
Inductive pyval : Type :=
| PNone
| PBool (b : bool)
| PInt (z : Z)
| PFloat (f : float)
| PStr (s : string)
| PBytes (s : string)
| PList (l : list pyval)
| PDict (d : list (string * pyval))
| POrderedDict (d : list (string * pyval))
| PMethod (name : string)      (* a bound method of the Blockchain object *)
| PSHA (state : string).       (* a Crypto.Hash.SHA hash object *)

(** ** Exceptions and results *)

Inductive exn : Type :=
| TypeError
| AttributeError
| IndexError
| KeyError (key : pyval)
| ValueError
| ConnectionError.

Inductive result (A : Type) : Type :=
| Ok (a : A)
| Raise (e : exn).
Arguments Ok {A} a.
Arguments Raise {A} e.

Definition rbind {A B} (r : result A) (k : A -> result B) : result B :=
  match r with
  | Ok a => k a
  | Raise e => Raise e
  end.

Declare Scope py_scope.
Delimit Scope py_scope with py.
Notation "x <- c ;; k" := (rbind c (fun x => k))
  (at level 61, c at next level, right associativity) : py_scope.
Local Open Scope py_scope.

Definition raises {A} (r : result A) : Prop := exists e, r = Raise e.

(** A method of an object with state [S]: outcome and state after. *)
Definition method (S A : Type) : Type := S -> result A * S.

Definition mret {S A} (a : A) : method S A := fun s => (Ok a, s).
Definition mraise {S A} (e : exn) : method S A := fun s => (Raise e, s).
Definition mbind {S A B} (m : method S A) (k : A -> method S B) : method S B :=
  fun s => match m s with
           | (Ok a, s') => k a s'
           | (Raise e, s') => (Raise e, s')
           end.
Definition mlift {S A} (r : result A) : method S A := fun s => (r, s).
Definition mget {S} : method S S := fun s => (Ok s, s).
Definition mput {S} (s : S) : method S unit := fun _ => (Ok tt, s).

Declare Scope method_scope.
Delimit Scope method_scope with method.
Notation "x <~ c ;; k" := (mbind c (fun x => k))
  (at level 61, c at next level, right associativity) : method_scope.
Notation "c ;;; k" := (mbind c (fun _ => k))
  (at level 61, right associativity) : method_scope.

(** ** Built-in operations *)

(** Items of a dictionary. *)
Fixpoint lookup (k : string) (d : list (string * pyval)) : option pyval :=
  match d with
  | [] => None
  | (k', v) :: d' => if String.eqb k k' then Some v else lookup k d'
  end.

(** [d[k] = v] on a dictionary that keeps insertion order: an existing key
    keeps its place, a new key goes last. *)
Fixpoint setitem (k : string) (v : pyval) (d : list (string * pyval))
  : list (string * pyval) :=
  match d with
  | [] => [(k, v)]
  | (k', v') :: d' =>
      if String.eqb k k' then (k, v) :: d' else (k', v') :: setitem k v d'
  end.

(** The characters of a string, each a string of length one. *)
Fixpoint chars (s : string) : list pyval :=
  match s with
  | EmptyString => []
  | String c s' => PStr (String c EmptyString) :: chars s'
  end.

(** [len(v)]. *)
Definition py_len (v : pyval) : result Z :=
  match v with
  | PList l => Ok (Z.of_nat (List.length l))
  | PStr s | PBytes s => Ok (Z.of_nat (String.length s))
  | PDict d | POrderedDict d => Ok (Z.of_nat (List.length d))
  | _ => Raise TypeError
  end.

(** Position of index [i] in a sequence of length [n]: negative indices
    count from the end. *)
Definition position (n : nat) (i : Z) : option nat :=
  if (0 <=? i) && (i <? Z.of_nat n) then Some (Z.to_nat i)
  else if (- Z.of_nat n <=? i) && (i <? 0) then Some (Z.to_nat (Z.of_nat n + i))
  else None.

(** [v[i]] for an integer [i]. *)
Definition py_index (v : pyval) (i : Z) : result pyval :=
  match v with
  | PList l =>
      match position (List.length l) i with
      | Some p => match nth_error l p with
                  | Some x => Ok x
                  | None => Raise IndexError
                  end
      | None => Raise IndexError
      end
  | PStr s =>
      match position (String.length s) i with
      | Some p => match nth_error (chars s) p with
                  | Some x => Ok x
                  | None => Raise IndexError
                  end
      | None => Raise IndexError
      end
  | PBytes s =>
      match position (String.length s) i with
      | Some p => match String.get p s with
                  | Some c => Ok (PInt (Z.of_nat (nat_of_ascii c)))
                  | None => Raise IndexError
                  end
      | None => Raise IndexError
      end
  | PDict _ | POrderedDict _ => Raise (KeyError (PInt i))
  | _ => Raise TypeError
  end.

(** [v[k]] for a string [k]. *)
Definition py_getitem (v : pyval) (k : string) : result pyval :=
  match v with
  | PDict d | POrderedDict d =>
      match lookup k d with
      | Some x => Ok x
      | None => Raise (KeyError (PStr k))
      end
  | _ => Raise TypeError
  end.

(** [v[:-1]]: a sequence without its last element. *)
Definition py_drop_last (v : pyval) : result pyval :=
  match v with
  | PList l => Ok (PList (removelast l))
  | PStr s => Ok (PStr (substring 0 (Nat.pred (String.length s)) s))
  | PBytes s => Ok (PBytes (substring 0 (Nat.pred (String.length s)) s))
  | _ => Raise TypeError
  end.

(** The elements a [for] loop visits. *)
Definition py_iter (v : pyval) : result (list pyval) :=
  match v with
  | PList l => Ok l
  | PStr s => Ok (chars s)
  | PBytes s =>
      Ok (map (fun c => PInt (Z.of_nat (nat_of_ascii c))) (list_ascii_of_string s))
  | PDict d | POrderedDict d => Ok (map (fun kv => PStr (fst kv)) d)
  | _ => Raise TypeError
  end.

(** Truth value of an object in an [if]. *)
Definition py_truthy (v : pyval) : bool :=
  match v with
  | PNone => false
  | PBool b => b
  | PInt z => negb (z =? 0)
  | PFloat f => negb (PrimFloat.eqb f 0%float)
  | PStr s | PBytes s => negb (String.eqb s "")
  | PList l => match l with [] => false | _ => true end
  | PDict d | POrderedDict d => match d with [] => false | _ => true end
  | PMethod _ | PSHA _ => true
  end.

(** [v == s] and [v != s] against a [str]. *)
Definition py_eq_str (v : pyval) (s : string) : bool :=
  match v with
  | PStr s' => String.eqb s' s
  | _ => false
  end.

Definition py_ne_str (v : pyval) (s : string) : bool := negb (py_eq_str v s).

(** ['a' + v + 'b'] where the outer operands are [str]: concatenation is
    defined between strings only. *)
Definition py_concat3 (a : string) (v : pyval) (b : string) : result string :=
  match v with
  | PStr s => Ok (a ++ s ++ b)%string
  | _ => Raise TypeError
  end.

(** [v.encode('utf-8')]: a method of [str] alone. *)
Definition py_encode (v : pyval) : result pyval :=
  match v with
  | PStr s => Ok (PBytes s)
  | _ => Raise AttributeError
  end.

(** Numbers, for the one ordering test of the module. *)
Inductive number : Type :=
| NInt (z : Z)
| NFloat (f : float).

Definition as_number (v : pyval) : option number :=
  match v with
  | PInt z => Some (NInt z)
  | PBool b => Some (NInt (if b then 1 else 0))
  | PFloat f => Some (NFloat f)
  | _ => None
  end.

Definition of_number (n : number) : pyval :=
  match n with
  | NInt z => PInt z
  | NFloat f => PFloat f
  end.

(** Exact comparison of a float with an integer, as Python does it:
    [None] for a NaN, which is unordered. *)
Definition float_compare_Z (f : float) (z : Z) : option comparison :=
  match Prim2SF f with
  | S754_zero _ => Some (0 ?= z)
  | S754_infinity neg => Some (if neg then Lt else Gt)
  | S754_nan => None
  | S754_finite neg m e =>
      let v := if neg then Z.neg m else Z.pos m in
      if 0 <=? e then Some (v * 2 ^ e ?= z) else Some (v ?= z * 2 ^ (- e))
  end.

(** [a > b] on numbers. *)
Definition number_gt (a b : number) : bool :=
  match a, b with
  | NInt x, NInt y => x >? y
  | NFloat f, NInt y =>
      match float_compare_Z f y with Some Gt => true | _ => false end
  | NInt x, NFloat g =>
      match float_compare_Z g x with Some Lt => true | _ => false end
  | NFloat f, NFloat g => PrimFloat.ltb g f
  end.

(** [v > n] for a number [n]: any other kind of [v] is not ordered against
    a number. *)
Definition py_gt (v : pyval) (n : number) : result (bool * number) :=
  match as_number v with
  | Some a => Ok (number_gt a n, a)
  | None => Raise TypeError
  end.

(** ** The libraries the module imports *)

(** [hashlib], [json], [urllib.parse], [binascii], [Crypto] and the
    built-in [str()] are not part of the repository.  The embedding takes
    them as an interface and every property below holds for any
    implementation of it.

    - [sha256_hexdigest b] is [hashlib.sha256(b).hexdigest()];
    - [py_str v] is [str(v)];
    - [json_text v] is the text [json.dumps(v, sort_keys=True)] produces
      for a value it can serialise;
    - [urlparse u] gives the [netloc] and [path] of the parsed URL;
    - [SHA_new d] gives the state of the hash object [SHA.new(d)];
    - [PKCS1_sign] and [PKCS1_verify] are the [sign] and [verify] methods
      of a [PKCS1_v1_5] scheme created for a key. *)
Class Runtime : Type := {
  sha256_hexdigest : string -> string;
  py_str : pyval -> string;
  json_text : pyval -> string;
  urlparse : string -> result (string * string);
  unhexlify : pyval -> result string;
  hexlify : string -> string;
  rsa_key : Type;
  RSA_importKey : string -> result rsa_key;
  SHA_new : pyval -> result string;
  PKCS1_sign : rsa_key -> pyval -> result string;
  PKCS1_verify : rsa_key -> pyval -> string -> result bool
}.

(** What [json.dumps] accepts: [bytes], methods and hash objects are not
    JSON serialisable.  (That [json.dumps] also raises on an integer
    too long to print and on a value nested beyond the recursion limit is
    not modelled.) *)
Fixpoint json_serializable (v : pyval) : bool :=
  match v with
  | PNone | PBool _ | PInt _ | PFloat _ | PStr _ => true
  | PList l => forallb json_serializable l
  | PDict d | POrderedDict d =>
      forallb (fun kv => match kv with (_, x) => json_serializable x end) d
  | PBytes _ | PMethod _ | PSHA _ => false
  end.

(** [s[:d]] and ['0' * d] of [valid_proof], for any integer [d]. *)
Definition py_prefix (s : string) (d : Z) : string :=
  if 0 <=? d then substring 0 (Z.to_nat d) s
  else substring 0 (Z.to_nat (Z.of_nat (String.length s) + d)) s.

Fixpoint replicate (c : ascii) (n : nat) : string :=
  match n with
  | O => EmptyString
  | S n' => String c (replicate c n')
  end.

Definition py_zeros (d : Z) : string := replicate "0"%char (Z.to_nat d).

(** [s.replace('-', '')]. *)
Fixpoint remove_dashes (s : string) : string :=
  match s with
  | EmptyString => EmptyString
  | String c s' =>
      if Ascii.eqb c "-"%char then remove_dashes s' else String c (remove_dashes s')
  end.

(** Evaluation of a comprehension: left to right, stopping at the first
    element whose expression raises. *)
Fixpoint collect {A B} (f : A -> result B) (l : list A) : result (list B) :=
  match l with
  | [] => Ok []
  | x :: l' => y <- f x ;; ys <- collect f l' ;; Ok (y :: ys)
  end.

(** [OrderedDict(items)]. *)
Definition ordered_dict (items : list (string * pyval)) : pyval :=
  POrderedDict (fold_left (fun d kv => setitem (fst kv) (snd kv) d) items []).

(** ** Module constants *)

Definition MINING_DIFFICULTY : Z := 2.
Definition MINING_SENDER : string := "VOIDCOIN".
Definition MINING_REWARD : float := 0.25%float.

(** ** class Transaction *)

Record Transaction : Type := {
  sender_address : pyval;
  sender_private_key : pyval;
  recipient_address : pyval;
  timestamp : float;
  amount : pyval
}.

(** ** class Blockchain *)

Record Blockchain : Type := {
  transactions : list pyval;
  chain : pyval;
  nodes : list (string * pyval);
  node_id : string
}.

Definition set_transactions (t : list pyval) (self : Blockchain) : Blockchain :=
  {| transactions := t; chain := chain self;
     nodes := nodes self; node_id := node_id self |}.

Definition set_chain (c : pyval) (self : Blockchain) : Blockchain :=
  {| transactions := transactions self; chain := c;
     nodes := nodes self; node_id := node_id self |}.

Definition set_nodes (n : list (string * pyval)) (self : Blockchain) : Blockchain :=
  {| transactions := transactions self; chain := chain self;
     nodes := n; node_id := node_id self |}.

(** An HTTP response: its status and what [response.json()] gives. *)
Record response : Type := {
  status_code : Z;
  json : result pyval
}.

(** What [resolve_conflicts] does to the outside world. *)
Inductive event : Type :=
| Print (line : string)
| Get (url : string).

Section Methods.

Context {RT : Runtime}.

(** *** Transaction.to_dict, Transaction.sign_transaction *)

Definition to_dict (t : Transaction) : pyval :=
  POrderedDict [("sender_address", sender_address t);
                ("recipient_address", recipient_address t);
                ("amount", amount t)].

Definition sign_transaction (t : Transaction) : result pyval :=
  raw <- unhexlify (sender_private_key t) ;;
  private_key <- RSA_importKey raw ;;
  data <- py_encode (PStr (py_str (to_dict t))) ;;
  h <- SHA_new data ;;
  sig <- PKCS1_sign private_key (PSHA h) ;;
  Ok (PStr (hexlify sig)).

(** *** Blockchain.verify_transaction_signature

    Line 90 is [SHA.new(str(transaction)).encode('utf-8')]: the hash
    object is created from the [str] and [encode] is then looked up on the
    hash object. *)
Definition verify_transaction_signature
  (sender_address signature transaction : pyval) : result pyval :=
  raw <- unhexlify sender_address ;;
  public_key <- RSA_importKey raw ;;
  sha <- SHA_new (PStr (py_str transaction)) ;;
  h <- py_encode (PSHA sha) ;;
  sig <- unhexlify signature ;;
  ok <- PKCS1_verify public_key h sig ;;
  Ok (PBool ok).

(** *** Blockchain.add_transaction_to_current_array *)

Definition append_transaction (transaction : pyval) : method Blockchain unit :=
  fun self => (Ok tt, set_transactions (transactions self ++ [transaction]) self).

Definition next_block_number : method Blockchain pyval :=
  fun self => (n <- py_len (chain self) ;; Ok (PInt (n + 1)), self).

Definition add_transaction_to_current_array
  (sender_address recipient_address amount signature : pyval)
  : method Blockchain pyval :=
  let transaction := POrderedDict [("sender_address", sender_address);
                                   ("recipient_address", recipient_address);
                                   ("amount", amount)] in
  if py_eq_str sender_address MINING_SENDER then
    (append_transaction transaction ;;; next_block_number)%method
  else
    (verify <~ mlift (verify_transaction_signature
                        sender_address signature transaction) ;;
     if py_truthy verify then
       append_transaction transaction ;;; next_block_number
     else
       mret (PBool false))%method.

(** *** Blockchain.create_block_and_add_to_chain

    [now] is the reading of the clock that [time()] returns. *)
Definition new_block (number : Z) (now : float) (txs : list pyval)
  (nonce previous_hash : pyval) : pyval :=
  PDict [("block_number", PInt number);
         ("timestamp", PFloat now);
         ("transactions", PList txs);
         ("nonce", nonce);
         ("previous_hash", previous_hash)].

(** [self.chain.append(block)]: [append] is a method of lists. *)
Definition chain_append (block : pyval) : method Blockchain unit :=
  fun self =>
    match chain self with
    | PList l => (Ok tt, set_chain (PList (l ++ [block])) self)
    | _ => (Raise AttributeError, self)
    end.

Definition create_block_and_add_to_chain (nonce previous_hash : pyval)
  (now : float) : method Blockchain pyval :=
  (self <~ mget ;;
   n <~ mlift (py_len (chain self)) ;;
   let block := new_block (n + 1) now (transactions self) nonce previous_hash in
   mput (set_transactions [] self) ;;;
   chain_append block ;;;
   mret block)%method.

(** *** Blockchain.__init__

    [uuid] is the text of the identifier [uuid4()] draws. *)
Definition empty_Blockchain (uuid : string) : Blockchain :=
  {| transactions := []; chain := PList []; nodes := [];
     node_id := remove_dashes uuid |}.

Definition init (uuid : string) (now : float) : Blockchain :=
  snd (create_block_and_add_to_chain (PInt 0) (PStr "00") now
         (empty_Blockchain uuid)).

(** *** Blockchain.register_node *)

Definition register_node (node_url : string) (now : float)
  : method Blockchain unit :=
  fun self =>
    match urlparse node_url with
    | Raise e => (Raise e, self)
    | Ok (netloc, path) =>
        if negb (String.eqb netloc "") then
          (Ok tt, set_nodes (setitem netloc (PFloat now) (nodes self)) self)
        else if negb (String.eqb path "") then
          (Ok tt, set_nodes (setitem path (PFloat now) (nodes self)) self)
        else (Raise ValueError, self)
    end.

(** *** Blockchain.hash *)

Definition json_dumps (v : pyval) : result string :=
  if json_serializable v then Ok (json_text v) else Raise TypeError.

Definition hash (block : pyval) : result string :=
  block_string <- json_dumps block ;;
  Ok (sha256_hexdigest block_string).

(** *** Blockchain.valid_proof

    The value returned when the guess is built: [str] of the three
    arguments, their encoding and ['0' * difficulty] are taken to
    succeed. *)

Definition valid_proof (transactions last_hash nonce : pyval) (difficulty : Z)
  : bool :=
  let guess := (py_str transactions ++ py_str last_hash ++ py_str nonce)%string in
  let guess_hash := sha256_hexdigest guess in
  String.eqb (py_prefix guess_hash difficulty) (py_zeros difficulty).

(** *** Blockchain.last_block

    Defined at line 241 as a plain method: [self.last_block()] is the tail
    of the chain, and the attribute [self.last_block] without a call is
    the bound method itself. *)
Definition last_block (self : Blockchain) : result pyval :=
  py_index (chain self) (-1).

Definition attr_last_block (self : Blockchain) : pyval := PMethod "last_block".

(** *** Blockchain.proof_of_work

    The [while] loop has no bound: [search] runs it for at most [fuel]
    tests and gives [None] when it has not returned by then. *)
Fixpoint search (transactions : pyval) (last_hash : string) (fuel : nat)
  (nonce : Z) : option Z :=
  match fuel with
  | O => None
  | S fuel' =>
      if valid_proof transactions (PStr last_hash) (PInt nonce) MINING_DIFFICULTY
      then Some nonce
      else search transactions last_hash fuel' (nonce + 1)
  end.

Definition proof_of_work (fuel : nat) (self : Blockchain) : option (result Z) :=
  match hash (attr_last_block self) with
  | Raise e => Some (Raise e)
  | Ok last_hash =>
      option_map Ok (search (PList (transactions self)) last_hash fuel 0)
  end.

(** *** Blockchain.valid_chain *)

Definition transaction_elements : list string :=
  ["sender_address"; "recipient_address"; "value"].

(** [OrderedDict((k, transaction[k]) for k in transaction_elements)]. *)
Definition rebuild (transaction : pyval) : result pyval :=
  items <- collect (fun k => v <- py_getitem transaction k ;; Ok (k, v))
             transaction_elements ;;
  Ok (ordered_dict items).

(** One pass of the loop body per remaining index; [len(chain)] does not
    change during the loop, so the number of passes is known on entry. *)
Fixpoint valid_chain_loop (chain : pyval) (passes : nat) (last_block : pyval)
  (current_index : Z) : result bool :=
  match passes with
  | O => Ok true
  | S passes' =>
      block <- py_index chain current_index ;;
      previous_hash <- py_getitem block "previous_hash" ;;
      last_hash <- hash last_block ;;
      if py_ne_str previous_hash last_hash then Ok false
      else
        all <- py_getitem block "transactions" ;;
        but_last <- py_drop_last all ;;
        elements <- py_iter but_last ;;
        transactions <- collect rebuild elements ;;
        previous_hash <- py_getitem block "previous_hash" ;;
        nonce <- py_getitem block "nonce" ;;
        if negb (valid_proof (PList transactions) previous_hash nonce
                   MINING_DIFFICULTY)
        then Ok false
        else valid_chain_loop chain passes' block (current_index + 1)
  end.

Definition valid_chain (chain : pyval) : result bool :=
  last_block <- py_index chain 0 ;;
  n <- py_len chain ;;
  valid_chain_loop chain (Z.to_nat (n - 1)) last_block 1.

(** *** Blockchain.resolve_conflicts

    [net url] is what [requests.get(url)] does during the pass: it raises
    or gives a response. *)

(** Lines 227 to 233: the body of [if response.status_code == 200]. *)
Definition consider (r : response) (max_length : number) (new_chain : pyval)
  : result (number * pyval) :=
  body <- json r ;;
  length <- py_getitem body "length" ;;
  body <- json r ;;
  chain <- py_getitem body "chain" ;;
  longer <- py_gt length max_length ;;
  if fst longer then
    valid <- valid_chain chain ;;
    if valid then Ok (snd longer, chain) else Ok (max_length, new_chain)
  else Ok (max_length, new_chain).

Fixpoint scan (net : string -> result response) (neighbours : list pyval)
  (max_length : number) (new_chain : pyval) (log : list event)
  : result (number * pyval) * list event :=
  match neighbours with
  | [] => (Ok (max_length, new_chain), log)
  | node :: rest =>
      match py_concat3 "http://" node "/chain" with
      | Raise e => (Raise e, log)
      | Ok url =>
          let log := log ++ [Print url; Get url] in
          match net url with
          | Raise e => (Raise e, log)
          | Ok r =>
              if status_code r =? 200 then
                match consider r max_length new_chain with
                | Raise e => (Raise e, log)
                | Ok (max_length, new_chain) =>
                    scan net rest max_length new_chain log
                end
              else scan net rest max_length new_chain log
          end
      end
  end.

Definition resolve_conflicts_log (net : string -> result response)
  (self : Blockchain) : result bool * list event * Blockchain :=
  let neighbours := map snd (nodes self) in
  match py_len (chain self) with
  | Raise e => (Raise e, [], self)
  | Ok n =>
      match scan net neighbours (NInt n) PNone [] with
      | (Raise e, log) => (Raise e, log, self)
      | (Ok (_, new_chain), log) =>
          if py_truthy new_chain
          then (Ok true, log, set_chain new_chain self)
          else (Ok false, log, self)
      end
  end.

Definition resolve_conflicts (net : string -> result response)
  : method Blockchain bool :=
  fun self =>
    match resolve_conflicts_log net self with
    | (r, _, self') => (r, self')
    end.

End Methods.

(** ** Running the class *)

(** The calls that can change a [Blockchain] object.  The other methods
    ([hash], [valid_proof], [valid_chain], [proof_of_work], [last_block],
    [verify_transaction_signature]) only read it. *)
Inductive call : Type :=
| Register_node (node_url : string) (now : float)
| Add_transaction (sender recipient amount signature : pyval)
| Create_block (nonce previous_hash : pyval) (now : float)
| Resolve_conflicts (net : string -> result response).

Section Runs.

Context {RT : Runtime}.

(** The object after a call, whether the call returned or raised. *)
Definition step (self : Blockchain) (c : call) : Blockchain :=
  match c with
  | Register_node node_url now => snd (register_node node_url now self)
  | Add_transaction sender recipient amount signature =>
      snd (add_transaction_to_current_array sender recipient amount signature self)
  | Create_block nonce previous_hash now =>
      snd (create_block_and_add_to_chain nonce previous_hash now self)
  | Resolve_conflicts net => snd (resolve_conflicts net self)
  end.

(** The object after construction and a sequence of calls. *)
Definition run (uuid : string) (now : float) (calls : list call) : Blockchain :=
  fold_left step calls (init uuid now).

(** The genesis block of an object constructed at clock reading [now]. *)
Definition genesis (now : float) : pyval :=
  new_block 1 now [] (PInt 0) (PStr "00").

End Runs.

(** ** A small runtime to run the definitions on

    Stand-ins for the imported libraries, simple enough to compute with:
    the digest is a two-digit checksum, values print as a short tag and
    their text, every hexadecimal argument decodes to itself.  Only the
    concrete runs below use it; the theorems are about every runtime. *)
Module Sample.

Definition hex_digit (n : nat) : ascii :=
  nth n (list_ascii_of_string "0123456789abcdef") "0"%char.

Fixpoint checksum (s : string) : nat :=
  match s with
  | EmptyString => 0%nat
  | String c s' => ((nat_of_ascii c + checksum s') mod 256)%nat
  end.

Definition digest (s : string) : string :=
  let n := checksum s in
  String (hex_digit (n / 16)) (String (hex_digit (n mod 16)) EmptyString).

Fixpoint digits (fuel : nat) (n : nat) (acc : string) : string :=
  match fuel with
  | O => acc
  | S fuel' =>
      let acc' := String (hex_digit (n mod 10)) acc in
      if (n <? 10)%nat then acc' else digits fuel' (n / 10) acc'
  end.

Definition show_Z (z : Z) : string :=
  let n := Z.abs_nat z in
  String.append (if z <? 0 then "-" else "") (digits (S n) n "").

Fixpoint show (v : pyval) : string :=
  match v with
  | PNone => "None"
  | PBool b => if b then "True" else "False"
  | PInt z => show_Z z
  | PFloat _ => "<float>"
  | PStr s | PBytes s => s
  | PList l => ("[" ++ String.concat ", " (map show l) ++ "]")%string
  | PDict d | POrderedDict d =>
      ("{" ++ String.concat ", "
                (map (fun kv => match kv with
                                | (k, x) => (k ++ ": " ++ show x)%string
                                end) d) ++ "}")%string
  | PMethod name => ("<bound method " ++ name ++ ">")%string
  | PSHA _ => "<SHA object>"
  end.

Definition bytes_of (v : pyval) : result string :=
  match v with
  | PStr s | PBytes s => Ok s
  | _ => Raise TypeError
  end.

(** A URL with a scheme has a [netloc], any other text is a [path]. *)
Definition split_url (u : string) : result (string * string) :=
  if String.prefix "http://" u
  then Ok (substring 7 (String.length u) u, "")
  else Ok ("", u).

#[export] Instance runtime : Runtime := {
  sha256_hexdigest := digest;
  py_str := show;
  json_text := show;
  urlparse := split_url;
  unhexlify := bytes_of;
  hexlify := fun s => s;
  rsa_key := string;
  RSA_importKey := fun raw => Ok raw;
  SHA_new := fun v => match v with
                      | PBytes s => Ok (digest s)
                      | _ => Raise TypeError
                      end;
  PKCS1_sign := fun key h => Ok (key ++ show h)%string;
  PKCS1_verify := fun key h sig => Ok (String.eqb sig (key ++ show h)%string)
}.

(** A mint reward, and a chain of two blocks that is valid for this
    runtime: the hash of [genesis 1.5] is ["66"] and 1999 is the first
    nonce that qualifies for it with no other transaction. *)
Definition reward : pyval :=
  POrderedDict [("sender_address", PStr MINING_SENDER);
                ("recipient_address", PStr "c0ffee");
                ("amount", PFloat MINING_REWARD)].

Definition peer_chain : pyval :=
  PList [genesis 1.5%float;
         new_block 2 2.5%float [reward] (PInt 1999) (PStr "66")].

Definition not_found : response :=
  {| status_code := 404; json := Raise ValueError |}.

Definition garbled : response :=
  {| status_code := 200; json := Raise ValueError |}.

Definition no_length : response :=
  {| status_code := 200; json := Ok (PDict [("chain", peer_chain)]) |}.

(** A network of five peers: the first cannot be reached, the second
    answers 404, the third serves [peer_chain], the fourth a body that is
    not JSON and the fifth a body without ['length']. *)
Definition network (url : string) : result response :=
  if String.eqb url "http://10.0.0.1:5000/chain" then Raise ConnectionError
  else if String.eqb url "http://10.0.0.2:5000/chain" then Ok not_found
  else if String.eqb url "http://10.0.0.3:5000/chain" then
    Ok {| status_code := 200;
          json := Ok (PDict [("length", PInt 2); ("chain", peer_chain)]) |}
  else if String.eqb url "http://10.0.0.4:5000/chain" then Ok garbled
  else if String.eqb url "http://10.0.0.5:5000/chain" then Ok no_length
  else Raise ConnectionError.

(** An object holding the genesis block whose registry has addresses as
    values.  [nodes] is a plain attribute and can be filled so, but
    [register_node] stores clock readings: no sequence of calls of the
    class gives this object. *)
Definition node_with_addresses (addresses : list string) : Blockchain :=
  {| transactions := [];
     chain := PList [genesis 1.5%float];
     nodes := map (fun a => (a, PStr a)) addresses;
     node_id := "c0ffee" |}.

End Sample.

(** ** Shape of the objects the class builds *)

Definition is_float (v : pyval) : bool :=
  match v with
  | PFloat _ => true
  | _ => false
  end.

(** Every value of the node registry is a clock reading. *)
Definition registry_of_timestamps (nd : list (string * pyval)) : bool :=
  forallb (fun kv => is_float (snd kv)) nd.

(** The chain is a list that starts with the genesis block built at
    [now] and the registry holds clock readings. *)
Definition well_formed (now : float) (self : Blockchain) : Prop :=
  (exists rest, chain self = PList (genesis now :: rest))
  /\ registry_of_timestamps (nodes self) = true.

(** ** The fork resolver in the words of the spec *)

(** The pass over peer-supplied pairs of a length and a chain: a pair
    whose length exceeds the greatest so far and whose chain is valid
    becomes the best candidate and raises the greatest length. *)
Fixpoint best_candidate (valid : pyval -> bool) (peers : list (Z * pyval))
  (max_length : Z) (best : pyval) : Z * pyval :=
  match peers with
  | [] => (max_length, best)
  | (length, chain) :: rest =>
      if (length >? max_length) && valid chain
      then best_candidate valid rest length chain
      else best_candidate valid rest max_length best
  end.

Section Peers.

Context {RT : Runtime}.

(** [valid_chain] returns true on the chain. *)
Definition passes (chain : pyval) : bool :=
  match valid_chain chain with
  | Ok b => b
  | Raise _ => false
  end.

(** The peer at [address] answers a request for its chain with status
    200 and a body that holds the integer [length] and [chain], and
    [valid_chain] returns on that chain. *)
Definition serves (net : string -> result response)
  (address : string) (length : Z) (chain : pyval) : Prop :=
  exists r body,
    net ("http://" ++ address ++ "/chain")%string = Ok r
    /\ status_code r = 200
    /\ json r = Ok body
    /\ py_getitem body "length" = Ok (PInt length)
    /\ py_getitem body "chain" = Ok chain
    /\ exists b, valid_chain chain = Ok b.

End Peers.

(** ** The loop of [valid_chain], block by block *)

Section Links.

Context {RT : Runtime}.

(** Lines 190 to 203 for one block and the block before it: true when
    both tests pass, false when one of them fails. *)
Definition check_block (last_block block : pyval) : result bool :=
  previous_hash <- py_getitem block "previous_hash" ;;
  last_hash <- hash last_block ;;
  if py_ne_str previous_hash last_hash then Ok false
  else
    all <- py_getitem block "transactions" ;;
    but_last <- py_drop_last all ;;
    elements <- py_iter but_last ;;
    transactions <- collect rebuild elements ;;
    previous_hash <- py_getitem block "previous_hash" ;;
    nonce <- py_getitem block "nonce" ;;
    Ok (valid_proof (PList transactions) previous_hash nonce MINING_DIFFICULTY).

(** The walk over the blocks that follow [last_block]. *)
Fixpoint links (last_block : pyval) (rest : list pyval) : result bool :=
  match rest with
  | [] => Ok true
  | block :: rest' =>
      ok <- check_block last_block block ;;
      if ok then links block rest' else Ok false
  end.

End Links.

(** ** The transactions a ledger holds *)

(** The transactions of a block of the chain. *)
Definition block_transactions (block : pyval) : list pyval :=
  match py_getitem block "transactions" with
  | Ok (PList l) => l
  | _ => []
  end.

(** Every transaction of the object, oldest first: those of the blocks
    of the chain, then the pending ones. *)
Definition ledger_transactions (self : Blockchain) : list pyval :=
  match chain self with
  | PList l => flat_map block_transactions l
  | _ => []
  end ++ transactions self.

(** The blocks of a chain are numbered from 1 on. *)
Definition numbered_from_one (l : list pyval) : Prop :=
  forall i b, nth_error l i = Some b ->
    py_getitem b "block_number" = Ok (PInt (Z.of_nat i + 1)).

(** The transaction a call hands over from the mint identity, if any. *)
Definition minted (c : call) : list pyval :=
  match c with
  | Add_transaction sender recipient amount _ =>
      if py_eq_str sender MINING_SENDER
      then [POrderedDict [("sender_address", sender);
                          ("recipient_address", recipient);
                          ("amount", amount)]]
      else []
  | _ => []
  end.

(** The arguments of a call that end up in a block are JSON values. *)
Definition json_call (c : call) : bool :=
  match c with
  | Add_transaction sender recipient amount _ =>
      json_serializable recipient && json_serializable amount
  | Create_block nonce previous_hash _ =>
      json_serializable nonce && json_serializable previous_hash
  | _ => true
  end.

(** The URL [resolve_conflicts] builds for a node. *)
Definition chain_url (node : string) : string :=
  ("http://" ++ node ++ "/chain")%string.

(** ** What [str] and [json.dumps] render *)

(** CPython converts an [int] to text only when it has at most 4300
    digits ([sys.int_max_str_digits]); beyond that [str] and
    [json.dumps] raise.  Deeply nested values exhaust the recursion limit
    of both.  The values below are safe on both counts: scalars with
    integers in range, and the shapes the module builds from them. *)
Definition INT_MAX_STR_DIGITS : Z := 4300.

Definition int_prints (z : Z) : bool := Z.abs z <? 10 ^ INT_MAX_STR_DIGITS.

(** A value without parts: [None], a [bool], a [float], a [str], or an
    [int] that can be printed. *)
Definition scalar (v : pyval) : bool :=
  match v with
  | PNone | PBool _ | PFloat _ | PStr _ => true
  | PInt z => int_prints z
  | _ => false
  end.

(** A dictionary of scalars, as transactions are. *)
Definition flat_dict (v : pyval) : bool :=
  match v with
  | PDict d | POrderedDict d => forallb (fun kv => scalar (snd kv)) d
  | _ => false
  end.

(** A list of dictionaries of scalars, as the pending buffer is. *)
Definition flat_transactions (v : pyval) : bool :=
  match v with
  | PList l => forallb flat_dict l
  | _ => false
  end.

(** The arguments of a call that end up in a block are scalars. *)
Definition scalar_call (c : call) : bool :=
  match c with
  | Add_transaction sender recipient amount _ =>
      scalar recipient && scalar amount
  | Create_block nonce previous_hash _ =>
      scalar nonce && scalar previous_hash
  | _ => true
  end.

(** ** Attribute access on a Transaction *)

(** [Transaction.__getattr__] is what Python calls when the ordinary
    lookup of an attribute fails; its body is [self.data[attr]], and the
    access [self.data] is an attribute access in turn.  [found] is the
    ordinary lookup; [depth] bounds the nesting of calls, and [None]
    says that the access has not come back within that depth. *)
Fixpoint getattr (found : string -> option pyval) (depth : nat)
  (attr : string) : option (result pyval) :=
  match found attr with
  | Some v => Some (Ok v)
  | None =>
      match depth with
      | O => None
      | S depth' =>
          match getattr found depth' "data" with
          | Some (Ok data) => Some (py_getitem data attr)
          | Some (Raise e) => Some (Raise e)
          | None => None
          end
      end
  end.

(** The ordinary lookup on a Transaction, for the attributes
    [Transaction.__init__] sets and the methods the class defines (the
    names every Python object has are left out). *)
Definition transaction_attribute (t : Transaction) (attr : string)
  : option pyval :=
  if String.eqb attr "sender_address" then Some (sender_address t)
  else if String.eqb attr "sender_private_key" then Some (sender_private_key t)
  else if String.eqb attr "recipient_address" then Some (recipient_address t)
  else if String.eqb attr "timestamp" then Some (PFloat (timestamp t))
  else if String.eqb attr "amount" then Some (amount t)
  else if String.eqb attr "to_dict" then Some (PMethod "to_dict")
  else if String.eqb attr "sign_transaction" then Some (PMethod "sign_transaction")
  else None.

(** * Properties *)

(** Evaluation of a call on arguments given in part: [cbn], with the
    literal positions and counts computed. *)
Ltac evaluate :=
  cbn;
  repeat (match goal with
          | |- context [Pos.to_nat ?p] =>
              let n := eval compute in (Pos.to_nat p) in
              change (Pos.to_nat p) with n
          end; cbn).

Section Properties.

Context {RT : Runtime}.

(** ** Signatures *)

(** [encode] is not an attribute of a hash object. *)
Lemma py_encode_hash_object (state : string) :
  py_encode (PSHA state) = Raise AttributeError.
Proof. reflexivity. Qed.

(** Every path through [verify_transaction_signature] ends in an
    exception: the key is refused, the hash object cannot be created from
    a [str], or [encode] is missing on the hash object. *)
Lemma verification_raises sender_address signature transaction :
  raises (verify_transaction_signature sender_address signature transaction).
Proof.
  unfold verify_transaction_signature, raises.
  destruct (unhexlify sender_address) as [raw|e]; cbn; [|eauto].
  destruct (RSA_importKey raw) as [key|e]; cbn; [|eauto].
  destruct (SHA_new (PStr (py_str transaction))) as [sha|e]; cbn; eauto.
Qed.

(** C3.  [verify_transaction_signature] never returns: whatever the key,
    the signature and the transaction, and whatever the cryptographic
    library does with them, the call ends in an exception, so a bad
    signature is not answered with false, nor a good one with true. *)
Theorem verify_transaction_signature_always_raises :
  forall sender_address signature transaction,
    raises (verify_transaction_signature sender_address signature transaction).
Proof.
  intros sender_address signature transaction.
  unfold verify_transaction_signature.
  destruct (unhexlify sender_address) as [raw|e]; cbn [rbind];
    [|now exists e].
  destruct (RSA_importKey raw) as [key|e]; cbn [rbind]; [|now exists e].
  destruct (SHA_new (PStr (py_str transaction))) as [sha|e]; cbn [rbind].
  - rewrite py_encode_hash_object. now exists AttributeError.
  - now exists e.
Qed.

(** When the key is well formed the exception is a type or attribute
    error, raised while the digest of the transaction is prepared. *)
Lemma verify_transaction_signature_with_key :
  forall sender_address signature transaction raw key,
    unhexlify sender_address = Ok raw ->
    RSA_importKey raw = Ok key ->
    verify_transaction_signature sender_address signature transaction =
      match SHA_new (PStr (py_str transaction)) with
      | Ok _ => Raise AttributeError
      | Raise e => Raise e
      end.
Proof.
  intros * Hraw Hkey. unfold verify_transaction_signature.
  rewrite Hraw; cbn. rewrite Hkey; cbn.
  destruct (SHA_new _); reflexivity.
Qed.

(** The signing side, [sign_transaction], encodes the text first and
    hashes the bytes: with a well-formed key it reaches the signer. *)
Lemma sign_transaction_with_key :
  forall t raw key h,
    unhexlify (sender_private_key t) = Ok raw ->
    RSA_importKey raw = Ok key ->
    SHA_new (PBytes (py_str (to_dict t))) = Ok h ->
    sign_transaction t =
      (sig <- PKCS1_sign key (PSHA h) ;; Ok (PStr (hexlify sig))).
Proof.
  intros * Hraw Hkey Hsha. unfold sign_transaction.
  rewrite Hraw; cbn. rewrite Hkey; cbn. rewrite Hsha; reflexivity.
Qed.

(** ** Admission of transactions *)

(** A transaction of the mint identity is appended without any check and
    the number of the next block is returned. *)
Lemma add_transaction_from_mint :
  forall recipient amount signature txs l nd id,
    add_transaction_to_current_array (PStr MINING_SENDER) recipient amount
      signature
      {| transactions := txs; chain := PList l; nodes := nd; node_id := id |} =
    (Ok (PInt (Z.of_nat (List.length l) + 1)),
     {| transactions :=
          txs ++ [POrderedDict [("sender_address", PStr MINING_SENDER);
                                ("recipient_address", recipient);
                                ("amount", amount)]];
        chain := PList l; nodes := nd; node_id := id |}).
Proof. reflexivity. Qed.

(** The branch of a wallet sender: the verification raises and the
    exception leaves the method before anything is written. *)
Lemma wallet_branch_raises sender recipient amt signature self :
  py_eq_str sender MINING_SENDER = false ->
  exists e,
    add_transaction_to_current_array sender recipient amt signature self =
    (Raise e, self).
Proof.
  intros Hsender.
  unfold add_transaction_to_current_array. rewrite Hsender.
  unfold mbind, mlift.
  destruct (verification_raises sender signature
              (POrderedDict [("sender_address", sender);
                             ("recipient_address", recipient);
                             ("amount", amt)])) as [e He].
  rewrite He. eauto.
Qed.

(** C4.  For a sender other than the mint identity the call raises, with
    the object unchanged, whatever the signature: the verification it
    relies on never returns, so neither the sequence number nor the
    rejection value is ever returned. *)
Theorem add_transaction_from_wallet_raises :
  forall sender recipient amount signature self,
    py_eq_str sender MINING_SENDER = false ->
    exists e,
      add_transaction_to_current_array sender recipient amount signature self =
      (Raise e, self).
Proof.
  intros sender recipient amt signature self Hsender.
  unfold add_transaction_to_current_array. rewrite Hsender.
  unfold mbind, mlift.
  destruct (verification_raises sender signature
              (POrderedDict [("sender_address", sender);
                             ("recipient_address", recipient);
                             ("amount", amt)])) as [e He].
  rewrite He. now exists e.
Qed.

(** The object after any call of [add_transaction_to_current_array] for a
    wallet sender is the object before it. *)
Lemma add_transaction_from_wallet_frame :
  forall sender recipient amount signature self,
    py_eq_str sender MINING_SENDER = false ->
    snd (add_transaction_to_current_array sender recipient amount signature self)
    = self.
Proof.
  intros sender recipient amt signature self Hsender.
  destruct (wallet_branch_raises sender recipient amt signature self Hsender)
    as [e He].
  now rewrite He.
Qed.

(** ** Sealing *)

(** C8.  [create_block_and_add_to_chain] on a chain of blocks [l] returns
    the block numbered [len(l) + 1] that holds the pending transactions,
    the given nonce and the given previous hash; afterwards the chain is
    [l] followed by that block, one longer, the pending buffer is empty
    and the rest of the object is unchanged. *)
Theorem create_block_and_add_to_chain_seals :
  forall txs l nd id nonce previous_hash now,
    let block :=
      new_block (Z.of_nat (List.length l) + 1) now txs nonce previous_hash in
    create_block_and_add_to_chain nonce previous_hash now
      {| transactions := txs; chain := PList l; nodes := nd; node_id := id |} =
    (Ok block,
     {| transactions := []; chain := PList (l ++ [block]);
        nodes := nd; node_id := id |})
    /\ py_getitem block "block_number" = Ok (PInt (Z.of_nat (List.length l) + 1))
    /\ py_getitem block "transactions" = Ok (PList txs)
    /\ py_getitem block "nonce" = Ok nonce
    /\ py_getitem block "previous_hash" = Ok previous_hash
    /\ py_len (PList (l ++ [block])) = Ok (Z.of_nat (List.length l) + 1).
Proof.
  intros. repeat split; try reflexivity.
  cbn. rewrite length_app. cbn. f_equal. lia.
Qed.

(** ** Validation of a chain *)

(** C10.  A chain of exactly one block is valid whatever the block is:
    the loop of [valid_chain] starts at index 1 and is not entered, so
    nothing of the block is read (the block need not even be a
    dictionary). *)
Theorem valid_chain_single_block :
  forall block : pyval, valid_chain (PList [block]) = Ok true.
Proof. intros block. reflexivity. Qed.

End Properties.

(** A concrete wallet transaction with the sample runtime. *)
Lemma add_transaction_from_wallet_raises_witness :
  py_eq_str (PStr "alice") MINING_SENDER = false /\
  exists e,
    add_transaction_to_current_array (RT := Sample.runtime)
      (PStr "alice") (PStr "bob") (PInt 3) (PStr "00")
      (init "c0-ffee" 1.5%float) =
    (Raise e, init "c0-ffee" 1.5%float).
Proof.
  split; [reflexivity|].
  apply (add_transaction_from_wallet_raises (RT := Sample.runtime)).
  reflexivity.
Defined.

(** ** The objects the class builds *)

Section Reachable.

Context {RT : Runtime}.

Lemma last_cons_default (l : list pyval) (x d : pyval) :
  last (x :: l) d = last l x.
Proof.
  revert x d. induction l as [|y l IH]; intros x d; [reflexivity|].
  change (last (x :: y :: l) d) with (last (y :: l) d).
  rewrite (IH y d). symmetry. apply IH.
Qed.

Lemma nth_error_last (l : list pyval) (x : pyval) :
  nth_error (x :: l) (List.length l) = Some (last l x).
Proof.
  revert x. induction l as [|y l IH]; intros x; [reflexivity|].
  cbn [List.length nth_error]. rewrite IH.
  now rewrite last_cons_default.
Qed.

(** Index [-1] of a non-empty list is its last element. *)
Lemma py_index_last (l : list pyval) (x : pyval) :
  py_index (PList (x :: l)) (-1) = Ok (last l x).
Proof.
  unfold py_index, position.
  replace (0 <=? -1) with false by reflexivity. cbn [andb].
  replace (- Z.of_nat (List.length (x :: l)) <=? -1) with true
    by (symmetry; apply Z.leb_le; cbn [List.length]; lia).
  cbn [andb]. replace (-1 <? 0) with true by reflexivity.
  replace (Z.to_nat (Z.of_nat (List.length (x :: l)) + -1))
    with (List.length l) by (cbn [List.length]; lia).
  now rewrite nth_error_last.
Qed.

Lemma registry_of_timestamps_setitem k f nd :
  registry_of_timestamps nd = true ->
  registry_of_timestamps (setitem k (PFloat f) nd) = true.
Proof.
  unfold registry_of_timestamps.
  induction nd as [|[k' v'] nd IH]; cbn; [reflexivity|].
  intros H. apply andb_prop in H as [Hv Hnd].
  destruct (String.eqb k k'); cbn.
  - exact Hnd.
  - now rewrite Hv, IH.
Qed.

(** Building the URL of a peer stops at a node that is not a string,
    before anything is printed or fetched. *)
Lemma scan_not_a_string net node rest max_length new_chain log :
  (forall s, node <> PStr s) ->
  scan net (node :: rest) max_length new_chain log = (Raise TypeError, log).
Proof.
  intros Hnode. cbn.
  destruct node; try reflexivity. now destruct (Hnode s).
Qed.

(** On a well-formed object [resolve_conflicts] issues no request and
    changes nothing: it returns false when no node is registered and
    raises a type error otherwise. *)
Lemma resolve_conflicts_log_well_formed now net self :
  well_formed now self ->
  resolve_conflicts_log net self =
    (match nodes self with [] => Ok false | _ => Raise TypeError end, [], self).
Proof.
  intros [[rest Hchain] Hnodes].
  unfold resolve_conflicts_log. rewrite Hchain. cbn [py_len].
  destruct (nodes self) as [|[k v] nd]; [reflexivity|].
  cbn in Hnodes. apply andb_prop in Hnodes as [Hv _].
  destruct v; try discriminate Hv. reflexivity.
Qed.

Lemma init_well_formed uuid now : well_formed now (init uuid now).
Proof. split; [exists []|]; reflexivity. Qed.

Lemma step_well_formed now self c :
  well_formed now self -> well_formed now (step self c).
Proof.
  intros [[rest Hchain] Hnodes].
  destruct c as [node_url t|sender recipient amt signature
                |nonce previous_hash t|net]; cbn [step].
  - unfold register_node.
    destruct (urlparse node_url) as [[netloc path]|e]; cbn.
    2: { split; [exists rest|]; assumption. }
    destruct (String.eqb netloc ""); cbn.
    + destruct (String.eqb path ""); cbn.
      * split; [exists rest|]; assumption.
      * split; [exists rest; exact Hchain|].
        now apply registry_of_timestamps_setitem.
    + split; [exists rest; exact Hchain|].
      now apply registry_of_timestamps_setitem.
  - destruct (py_eq_str sender MINING_SENDER) eqn:Hsender.
    + unfold add_transaction_to_current_array. rewrite Hsender.
      split; [exists rest; exact Hchain|exact Hnodes].
    + rewrite add_transaction_from_wallet_frame by exact Hsender.
      split; [exists rest|]; assumption.
  - destruct self as [txs c nd id]. cbn in Hchain, Hnodes. subst c.
    split; [|exact Hnodes].
    eexists (rest ++ [_]). reflexivity.
  - unfold resolve_conflicts.
    rewrite (resolve_conflicts_log_well_formed (now := now)).
    + split; [exists rest|]; assumption.
    + split; [exists rest|]; assumption.
Qed.

Lemma fold_step_well_formed now calls self :
  well_formed now self -> well_formed now (fold_left step calls self).
Proof.
  revert self. induction calls as [|c calls IH]; intros self Hwf; [exact Hwf|].
  cbn. apply IH. now apply step_well_formed.
Qed.

Lemma run_well_formed uuid now calls : well_formed now (run uuid now calls).
Proof. apply fold_step_well_formed, init_well_formed. Qed.

(** C9.  A new object's chain is exactly the genesis block, with nonce 0,
    previous hash ['00'] and no transactions.  After any sequence of
    calls, returning or raising, the chain is still a list that starts
    with that block, so it is not empty and [last_block] returns its last
    element. *)
Theorem chain_never_empty :
  forall uuid now,
    chain (init uuid now) = PList [genesis now]
    /\ py_getitem (genesis now) "nonce" = Ok (PInt 0)
    /\ py_getitem (genesis now) "previous_hash" = Ok (PStr "00")
    /\ py_getitem (genesis now) "transactions" = Ok (PList [])
    /\ transactions (init uuid now) = []
    /\ forall calls,
         exists rest,
           chain (run uuid now calls) = PList (genesis now :: rest)
           /\ last_block (run uuid now calls) = Ok (last rest (genesis now)).
Proof.
  intros uuid now. repeat split.
  intros calls.
  destruct (run_well_formed uuid now calls) as [[rest Hchain] _].
  exists rest. split; [exact Hchain|].
  unfold last_block. rewrite Hchain. apply py_index_last.
Qed.

End Reachable.

(** ** Proof of work *)

Section ProofOfWork.

Context {RT : Runtime}.

(** C2.  [proof_of_work] raises a type error before it tests any nonce:
    [self.last_block] is a bound method, which [hash] hands to
    [json.dumps].  This holds for every object and however long the
    search would be allowed to run, so no nonce is ever returned. *)
Theorem proof_of_work_always_raises :
  forall fuel self, proof_of_work fuel self = Some (Raise TypeError).
Proof. intros fuel self. reflexivity. Qed.

(** The search loop taken by itself, from a hash of the last block: a
    nonce it returns passes [valid_proof] and no smaller candidate from
    the start does. *)
Lemma search_sound transactions last_hash fuel :
  forall start nonce,
    search transactions last_hash fuel start = Some nonce ->
    start <= nonce
    /\ valid_proof transactions (PStr last_hash) (PInt nonce) MINING_DIFFICULTY
       = true
    /\ forall m, start <= m < nonce ->
         valid_proof transactions (PStr last_hash) (PInt m) MINING_DIFFICULTY
         = false.
Proof.
  induction fuel as [|fuel IH]; intros start nonce; cbn [search]; [discriminate|].
  destruct (valid_proof transactions (PStr last_hash) (PInt start)
              MINING_DIFFICULTY) eqn:Hstart.
  - intros [= <-]. repeat split; [lia|exact Hstart|lia].
  - intros Hsearch. destruct (IH _ _ Hsearch) as (Hle & Hok & Hleast).
    repeat split; [lia|exact Hok|].
    intros m Hm. destruct (Z.eq_dec m start) as [->|Hne]; [exact Hstart|].
    apply Hleast. lia.
Qed.

(** The loop returns as soon as there is a qualifying nonce within the
    tests it is allowed: it returns the least one. *)
Lemma search_complete transactions last_hash :
  forall fuel start nonce,
    start <= nonce ->
    valid_proof transactions (PStr last_hash) (PInt nonce) MINING_DIFFICULTY
    = true ->
    (forall m, start <= m < nonce ->
       valid_proof transactions (PStr last_hash) (PInt m) MINING_DIFFICULTY
       = false) ->
    (Z.to_nat (nonce - start) < fuel)%nat ->
    search transactions last_hash fuel start = Some nonce.
Proof.
  induction fuel as [|fuel IH]; intros start nonce Hle Hok Hleast Hfuel; [lia|].
  cbn [search]. destruct (Z.eq_dec start nonce) as [->|Hne].
  - now rewrite Hok.
  - rewrite (Hleast start) by lia. apply IH; try assumption; try lia.
    intros m Hm. apply Hleast. lia.
Qed.

End ProofOfWork.

(** ** Validation of sealed chains *)

Section Validation.

Context {RT : Runtime}.

(** The genesis block can be serialised, so it has a hash. *)
Lemma hash_genesis now :
  hash (genesis now) = Ok (sha256_hexdigest (json_text (genesis now))).
Proof. reflexivity. Qed.

(** C1.  A chain sealed by the ledger from a block of two transactions
    does not validate: construct, admit two mint transactions, seal with
    the hash of the genesis block and any nonce at all; [valid_chain] on
    the resulting chain raises [KeyError('value')] while it rebuilds the
    first transaction, where the claim wants true (or false for a bad
    nonce). *)
Theorem valid_chain_raises_on_sealed_block :
  forall uuid now recipient1 amount1 sig1 recipient2 amount2 sig2 nonce t,
    let previous_hash := PStr (sha256_hexdigest (json_text (genesis now))) in
    let self :=
      run uuid now
        [Add_transaction (PStr MINING_SENDER) recipient1 amount1 sig1;
         Add_transaction (PStr MINING_SENDER) recipient2 amount2 sig2;
         Create_block nonce previous_hash t] in
    py_len (chain self) = Ok 2
    /\ valid_chain (chain self) = Raise (KeyError (PStr "value")).
Proof.
  intros. split; [reflexivity|].
  subst self previous_hash. unfold valid_chain. evaluate.
  unfold py_ne_str, py_eq_str. rewrite String.eqb_refl. reflexivity.
Qed.

(** With a single transaction in the sealed block (the reward alone) the
    transaction is dropped before the rebuilding, and the three parts of
    the claim hold: the chain validates when the nonce qualifies for the
    empty list, and does not when the nonce or the previous hash is
    wrong. *)
Lemma valid_chain_reward_only_block :
  forall now t reward nonce previous_hash,
    valid_chain
      (PList [genesis now; new_block 2 t [reward] nonce previous_hash]) =
    Ok (py_eq_str previous_hash (sha256_hexdigest (json_text (genesis now)))
        && valid_proof (PList []) previous_hash nonce MINING_DIFFICULTY).
Proof.
  intros. unfold valid_chain. evaluate. unfold py_ne_str.
  destruct (py_eq_str previous_hash
              (sha256_hexdigest (json_text (genesis now)))); cbn;
    [|reflexivity].
  now destruct (String.eqb _ "00").
Qed.

End Validation.

(** ** Resolution of conflicts *)

Section Resolution.

Context {RT : Runtime}.

(** [register_node] records the address as key and the clock reading as
    value. *)
Lemma register_node_records node_url t netloc path self :
  urlparse node_url = Ok (netloc, path) ->
  netloc <> "" ->
  register_node node_url t self =
    (Ok tt, set_nodes (setitem netloc (PFloat t) (nodes self)) self).
Proof.
  intros Hurl Hnetloc. unfold register_node. rewrite Hurl.
  destruct (String.eqb_spec netloc ""); [contradiction|reflexivity].
Qed.

(** [resolve_conflicts] never writes to the registry, the pending buffer
    or the node identifier, on any object. *)
Lemma resolve_conflicts_frame net self :
  let self' := snd (resolve_conflicts net self) in
  nodes self' = nodes self
  /\ transactions self' = transactions self
  /\ node_id self' = node_id self.
Proof.
  unfold resolve_conflicts, resolve_conflicts_log.
  destruct (py_len (chain self)); cbn; [|auto].
  destruct (scan net (map snd (nodes self)) (NInt a) PNone [])
    as [[[m c]|e] log]; cbn; [|auto].
  destruct (py_truthy c); cbn; auto.
Qed.

(** C7.  On every object the class builds, [resolve_conflicts] issues no
    request at all and leaves the object as it is: the nodes it iterates
    over are the registry's values, the clock readings, not its keys, so
    with a peer registered the first URL cannot be built and the call
    raises a type error.  (That the registry is never written holds, see
    [resolve_conflicts_frame].) *)
Theorem resolve_conflicts_issues_no_request :
  forall uuid now calls net,
    let self := run uuid now calls in
    resolve_conflicts_log net self =
      (match nodes self with [] => Ok false | _ => Raise TypeError end,
       [], self).
Proof.
  intros uuid now calls net self.
  apply (resolve_conflicts_log_well_formed (now := now)).
  apply run_well_formed.
Qed.

(** C5.  On every object the class builds, [resolve_conflicts] returns
    false or raises a type error, whatever the peers would answer, and
    the local chain stays: no peer chain is ever adopted, longer and
    valid or not. *)
Theorem resolve_conflicts_never_adopts :
  forall uuid now calls net,
    let self := run uuid now calls in
    resolve_conflicts net self = (Ok false, self)
    \/ resolve_conflicts net self = (Raise TypeError, self).
Proof.
  intros uuid now calls net self. unfold resolve_conflicts.
  rewrite (resolve_conflicts_log_well_formed (now := now))
    by apply run_well_formed.
  destruct (nodes self); auto.
Qed.

(** The outcome of the scan does not depend on what was logged before. *)
Lemma scan_outcome_log net neighbours :
  forall max_length new_chain log log',
    fst (scan net neighbours max_length new_chain log) =
    fst (scan net neighbours max_length new_chain log').
Proof.
  induction neighbours as [|node rest IH]; intros; cbn [scan]; [reflexivity|].
  destruct (py_concat3 "http://" node "/chain") as [url|e]; [|reflexivity].
  destruct (net url) as [r|e]; [|reflexivity].
  destruct (status_code r =? 200); [|apply IH].
  destruct (consider r max_length new_chain) as [[m c]|e]; [apply IH|reflexivity].
Qed.

(** A peer that answers with a status other than 200 can be left out of
    the scan. *)
Lemma scan_skips_status net p r :
  net ("http://" ++ p ++ "/chain")%string = Ok r ->
  status_code r <> 200 ->
  forall before after max_length new_chain log,
    fst (scan net (before ++ PStr p :: after) max_length new_chain log) =
    fst (scan net (before ++ after) max_length new_chain log).
Proof.
  intros Hnet Hstatus.
  induction before as [|node before IH]; intros; cbn [app scan].
  - cbn [py_concat3]. rewrite Hnet.
    destruct (Z.eqb_spec (status_code r) 200); [contradiction|].
    apply scan_outcome_log.
  - destruct (py_concat3 "http://" node "/chain") as [url|e]; [|reflexivity].
    destruct (net url) as [r'|e]; [|reflexivity].
    destruct (status_code r' =? 200); [|apply IH].
    destruct (consider r' max_length new_chain) as [[m c]|e];
      [apply IH|reflexivity].
Qed.

(** The scan over two lists of neighbours in a row: the scan over the
    first, and from where it ends, when it has not raised, the scan over
    the second. *)
Lemma scan_app net before :
  forall after max_length new_chain log,
    scan net (before ++ after) max_length new_chain log =
    match scan net before max_length new_chain log with
    | (Ok (m, c), log') => scan net after m c log'
    | (Raise e, log') => (Raise e, log')
    end.
Proof.
  induction before as [|node before IH]; intros; cbn [app scan]; [reflexivity|].
  destruct (py_concat3 "http://" node "/chain") as [url|e]; [|reflexivity].
  destruct (net url) as [r|e]; [|reflexivity].
  destruct (status_code r =? 200); [|apply IH].
  destruct (consider r max_length new_chain) as [[m c]|e];
    [apply IH|reflexivity].
Qed.

(** C6, as the code has it, for a registry whose values are addresses.
    A peer that answers with a status other than 200 contributes
    nothing, wherever it stands in the registry: the outcome and the
    resulting chain are those of the pass without it.  A peer that the
    pass reaches, wherever it stands and whatever candidate is held by
    then, and whose request raises, or whose answer has status 200 and a
    body that cannot be decoded or has no ['length'], ends the pass: the
    exception leaves [resolve_conflicts], the log ends with the request
    to that peer, so the remaining peers are not asked, and the object is
    unchanged. *)
Theorem resolve_conflicts_fetch_outcomes :
  forall net p txs l id,
    (forall r k before after,
       net ("http://" ++ p ++ "/chain")%string = Ok r ->
       status_code r <> 200 ->
       let with_peer :=
         resolve_conflicts net
           {| transactions := txs; chain := PList l;
              nodes := before ++ (k, PStr p) :: after; node_id := id |} in
       let without_peer :=
         resolve_conflicts net
           {| transactions := txs; chain := PList l;
              nodes := before ++ after; node_id := id |} in
       fst with_peer = fst without_peer
       /\ chain (snd with_peer) = chain (snd without_peer))
    /\ (forall e k before after max_length new_chain log,
          scan net (map snd before) (NInt (Z.of_nat (List.length l))) PNone []
            = (Ok (max_length, new_chain), log) ->
          net ("http://" ++ p ++ "/chain")%string = Raise e ->
          let self :=
            {| transactions := txs; chain := PList l;
               nodes := before ++ (k, PStr p) :: after; node_id := id |} in
          resolve_conflicts_log net self =
            (Raise e,
             log ++ [Print ("http://" ++ p ++ "/chain")%string;
                     Get ("http://" ++ p ++ "/chain")%string],
             self))
    /\ (forall r e k before after max_length new_chain log,
          scan net (map snd before) (NInt (Z.of_nat (List.length l))) PNone []
            = (Ok (max_length, new_chain), log) ->
          net ("http://" ++ p ++ "/chain")%string = Ok r ->
          status_code r = 200 ->
          json r = Raise e ->
          let self :=
            {| transactions := txs; chain := PList l;
               nodes := before ++ (k, PStr p) :: after; node_id := id |} in
          resolve_conflicts_log net self =
            (Raise e,
             log ++ [Print ("http://" ++ p ++ "/chain")%string;
                     Get ("http://" ++ p ++ "/chain")%string],
             self))
    /\ (forall r body e k before after max_length new_chain log,
          scan net (map snd before) (NInt (Z.of_nat (List.length l))) PNone []
            = (Ok (max_length, new_chain), log) ->
          net ("http://" ++ p ++ "/chain")%string = Ok r ->
          status_code r = 200 ->
          json r = Ok body ->
          py_getitem body "length" = Raise e ->
          let self :=
            {| transactions := txs; chain := PList l;
               nodes := before ++ (k, PStr p) :: after; node_id := id |} in
          resolve_conflicts_log net self =
            (Raise e,
             log ++ [Print ("http://" ++ p ++ "/chain")%string;
                     Get ("http://" ++ p ++ "/chain")%string],
             self)).
Proof.
  intros net p txs l id. split; [|split; [|split]].
  - intros r k before after Hnet Hstatus with_peer without_peer.
    subst with_peer without_peer.
    unfold resolve_conflicts, resolve_conflicts_log. cbn [chain nodes py_len].
    rewrite !map_app. cbn [map snd].
    pose proof (@scan_skips_status net p r Hnet Hstatus (map snd before)
                  (map snd after) (NInt (Z.of_nat (List.length l))) PNone [])
      as Hskip.
    destruct (scan net (map snd before ++ PStr p :: map snd after) _ _ _)
      as [o1 log1].
    destruct (scan net (map snd before ++ map snd after) _ _ _) as [o2 log2].
    cbn in Hskip. subst o2.
    destruct o1 as [[m c]|e]; cbn; [|auto].
    destruct (py_truthy c); cbn; auto.
  - intros e k before after m c log Hscan Hnet self. subst self.
    unfold resolve_conflicts_log. cbn [chain nodes py_len].
    rewrite map_app, scan_app, Hscan. cbn [map snd scan py_concat3].
    now rewrite Hnet.
  - intros r e k before after m c log Hscan Hnet Hstatus Hjson self.
    subst self.
    unfold resolve_conflicts_log. cbn [chain nodes py_len].
    rewrite map_app, scan_app, Hscan. cbn [map snd scan py_concat3].
    rewrite Hnet, Hstatus. cbn [Z.eqb Pos.eqb].
    unfold consider. rewrite Hjson. reflexivity.
  - intros r body e k before after m c log Hscan Hnet Hstatus Hjson Hlength
      self. subst self.
    unfold resolve_conflicts_log. cbn [chain nodes py_len].
    rewrite map_app, scan_app, Hscan. cbn [map snd scan py_concat3].
    rewrite Hnet, Hstatus. cbn [Z.eqb Pos.eqb].
    unfold consider. rewrite Hjson. cbn [rbind]. rewrite Hlength. reflexivity.
Qed.

End Resolution.

(** ** The scan over peers that answer *)

Section Selection.

Context {RT : Runtime}.

Lemma length_chars s : List.length (chars s) = String.length s.
Proof. induction s as [|c s IH]; cbn; [reflexivity|now rewrite IH]. Qed.

Lemma get_in_range s : forall n, (n < String.length s)%nat ->
  exists c, String.get n s = Some c.
Proof.
  induction s as [|c s IH]; intros n Hn; cbn in Hn; [lia|].
  destruct n as [|n]; cbn; [eauto|]. apply IH. lia.
Qed.

Lemma position_first n x : position n 0 = Some x -> (0 < n)%nat.
Proof.
  unfold position. destruct n as [|n]; cbn; [discriminate|lia].
Qed.

Lemma position_last n : (0 < n)%nat -> position n (-1) = Some (Nat.pred n).
Proof.
  intros Hn. unfold position.
  replace (0 <=? -1) with false by reflexivity. cbn [andb].
  replace (- Z.of_nat n <=? -1) with true by (symmetry; apply Z.leb_le; lia).
  replace (-1 <? 0) with true by reflexivity. cbn [andb].
  f_equal. lia.
Qed.

(** What has a first element is true in an [if] and has a last element. *)
Lemma py_index_first_last chain x :
  py_index chain 0 = Ok x ->
  py_truthy chain = true /\ exists b, py_index chain (-1) = Ok b.
Proof.
  intros Hfirst.
  destruct chain; cbn [py_index] in Hfirst; try discriminate.
  - destruct (position (String.length s) 0) eqn:Hpos; [|discriminate].
    apply position_first in Hpos. split.
    + destruct s; [cbn in Hpos; lia|reflexivity].
    + cbn [py_index]. rewrite (position_last Hpos).
      destruct (nth_error (chars s) (Nat.pred (String.length s))) eqn:Hnth;
        [eauto|].
      apply nth_error_None in Hnth. rewrite length_chars in Hnth. lia.
  - destruct (position (String.length s) 0) eqn:Hpos; [|discriminate].
    apply position_first in Hpos. split.
    + destruct s; [cbn in Hpos; lia|reflexivity].
    + cbn [py_index]. rewrite (position_last Hpos).
      destruct (@get_in_range s (Nat.pred (String.length s))) as [c Hc]; [lia|].
      rewrite Hc. eauto.
  - destruct l as [|y l]; [discriminate|].
    split; [reflexivity|].
    rewrite py_index_last. eauto.
Qed.

Lemma valid_chain_has_first chain b :
  valid_chain chain = Ok b -> exists x, py_index chain 0 = Ok x.
Proof.
  unfold valid_chain. destruct (py_index chain 0); cbn; [eauto|discriminate].
Qed.

(** The candidate kept by the scan is the one it started from or a chain
    on which [valid_chain] returned true. *)
Lemma scan_keeps_valid net neighbours :
  forall max_length new_chain log m c log',
    scan net neighbours max_length new_chain log = (Ok (m, c), log') ->
    c = new_chain \/ valid_chain c = Ok true.
Proof.
  induction neighbours as [|node rest IH]; intros * Hscan; cbn [scan] in Hscan.
  - injection Hscan as _ <- _. now left.
  - destruct (py_concat3 "http://" node "/chain") as [url|e]; [|discriminate].
    destruct (net url) as [r|e]; [|discriminate].
    destruct (status_code r =? 200); [|eapply IH; eassumption].
    destruct (consider r max_length new_chain) as [[m1 c1]|e] eqn:Hconsider;
      [|discriminate].
    apply IH in Hscan. unfold consider in Hconsider.
    destruct (json r) as [body|e]; cbn in Hconsider; [|discriminate].
    destruct (py_getitem body "length") as [len|e]; cbn in Hconsider;
      [|discriminate].
    destruct (py_getitem body "chain") as [ch|e]; cbn in Hconsider;
      [|discriminate].
    destruct (py_gt len max_length) as [[longer n]|e]; cbn in Hconsider;
      [|discriminate].
    destruct longer; [|injection Hconsider as _ <-; exact Hscan].
    destruct (valid_chain ch) as [[|]|e] eqn:Hvalid; cbn in Hconsider;
      try discriminate; injection Hconsider as _ <-; [|exact Hscan].
    destruct Hscan as [->|Hc]; [right; exact Hvalid|right; exact Hc].
Qed.

(** Whatever the registry holds and whatever the peers answer, a chain
    that has a last block still has one after [resolve_conflicts]. *)
Lemma resolve_conflicts_keeps_last_block net self b :
  last_block self = Ok b ->
  exists b', last_block (snd (resolve_conflicts net self)) = Ok b'.
Proof.
  intros Hlast. unfold resolve_conflicts, resolve_conflicts_log.
  destruct (py_len (chain self)) as [n|e]; cbn; [|eauto].
  destruct (scan net (map snd (nodes self)) (NInt n) PNone [])
    as [[[m c]|e] log] eqn:Hscan; cbn; [|eauto].
  destruct (py_truthy c) eqn:Htruthy; cbn; [|eauto].
  apply scan_keeps_valid in Hscan as [->|Hvalid]; [discriminate|].
  apply valid_chain_has_first in Hvalid as [x Hx].
  apply py_index_first_last in Hx as [_ Hb]. exact Hb.
Qed.

(** The scan over peers that all answer is the pass of the spec over
    what they serve. *)
Lemma scan_refines_best_candidate net :
  forall peers max_length new_chain log,
    Forall (fun peer => serves net (fst peer) (fst (snd peer)) (snd (snd peer)))
      peers ->
    fst (scan net (map (fun peer => PStr (fst peer)) peers)
           (NInt max_length) new_chain log) =
    Ok (let best := best_candidate passes (map snd peers) max_length new_chain in
        (NInt (fst best), snd best)).
Proof.
  induction peers as [|[address [len ch]] peers IH]; intros * Hall;
    [reflexivity|].
  inversion Hall as [|? ? Hpeer Hrest]; subst.
  destruct Hpeer as (r & body & Hnet & Hstatus & Hjson & Hlen & Hch & v & Hv).
  cbn [fst snd] in *. cbn [map scan py_concat3 best_candidate fst snd].
  rewrite Hnet, Hstatus. cbn [Z.eqb Pos.eqb].
  unfold consider. rewrite Hjson. cbn [rbind]. rewrite Hlen. cbn [rbind].
  rewrite Hch. cbn [rbind py_gt as_number number_gt fst snd].
  assert (Hpasses : passes ch = v) by (unfold passes; now rewrite Hv).
  rewrite Hpasses.
  destruct (len >? max_length); cbn [andb rbind]; [rewrite Hv; cbn [rbind]|].
  - destruct v; apply IH; assumption.
  - apply IH; assumption.
Qed.

(** What the pass of the spec picks: the greatest length of a valid pair
    above the starting length, with a chain served at that length; when
    there is none, the starting values.  A pair of the starting length
    is never picked. *)
Lemma best_candidate_greatest valid :
  forall peers max_length best,
    let picked := best_candidate valid peers max_length best in
    max_length <= fst picked
    /\ (forall length chain,
          In (length, chain) peers -> valid chain = true ->
          length <= fst picked)
    /\ ((fst picked = max_length /\ snd picked = best)
        \/ (max_length < fst picked
            /\ In picked peers /\ valid (snd picked) = true)).
Proof.
  induction peers as [|[len ch] peers IH]; intros max_length best picked.
  - subst picked. cbn. repeat split; [lia|intros ? ? []|now left].
  - subst picked. cbn [best_candidate].
    destruct (len >? max_length) eqn:Hgt; cbn [andb].
    + apply Z.gtb_lt in Hgt. destruct (valid ch) eqn:Hvalid.
      * destruct (IH len ch) as (Hle & Hmax & Hpick).
        repeat split; [lia| |].
        -- intros length chain [[= <- <-]|Hin] Hv; [exact Hle|eauto].
        -- right. destruct Hpick as [[Hm Hc]|(Hlt & Hin & Hv)].
           ++ repeat split; [lia| |now rewrite Hc].
              left. destruct (best_candidate valid peers len ch) as [m c].
              cbn in Hm, Hc. now subst.
           ++ repeat split; [lia|now right|exact Hv].
      * destruct (IH max_length best) as (Hle & Hmax & Hpick).
        repeat split; [exact Hle| |].
        -- intros length chain [[= <- <-]|Hin] Hv; [congruence|eauto].
        -- destruct Hpick as [?|(Hlt & Hin & Hv)]; [now left|].
           right. repeat split; [exact Hlt|now right|exact Hv].
    + rewrite Z.gtb_ltb, Z.ltb_ge in Hgt.
      destruct (IH max_length best) as (Hle & Hmax & Hpick).
      repeat split; [exact Hle| |].
      * intros length chain [[= <- <-]|Hin] Hv; [lia|eauto].
      * destruct Hpick as [?|(Hlt & Hin & Hv)]; [now left|].
        right. repeat split; [exact Hlt|now right|exact Hv].
Qed.

(** With addresses as registry values and peers that all answer,
    [resolve_conflicts] is the resolver of the spec: it adopts the pick
    of [best_candidate] and returns true when that pick is longer than
    the local chain, and otherwise returns false and keeps the chain. *)
Lemma resolve_conflicts_over_addresses net peers txs l id :
  Forall (fun peer => serves net (fst peer) (fst (snd peer)) (snd (snd peer)))
    peers ->
  let self :=
    {| transactions := txs; chain := PList l;
       nodes := map (fun peer => (fst peer, PStr (fst peer))) peers;
       node_id := id |} in
  let picked :=
    best_candidate passes (map snd peers) (Z.of_nat (List.length l)) PNone in
  resolve_conflicts net self =
    if Z.of_nat (List.length l) <? fst picked
    then (Ok true, set_chain (snd picked) self)
    else (Ok false, self).
Proof.
  intros Hall self picked.
  pose proof (scan_refines_best_candidate (Z.of_nat (List.length l)) PNone []
                Hall) as Hscan.
  pose proof (best_candidate_greatest passes (map snd peers)
                (Z.of_nat (List.length l)) PNone) as (_ & _ & Hpick).
  fold picked in Hscan, Hpick. cbn zeta in Hscan.
  unfold resolve_conflicts, resolve_conflicts_log. subst self.
  cbn [chain nodes py_len]. rewrite map_map. cbn [snd].
  destruct (scan net (map (fun peer => PStr (fst peer)) peers) _ _ _)
    as [outcome log].
  cbn [fst] in Hscan. subst outcome.
  destruct Hpick as [[Hm Hc]|(Hlt & _ & Hvalid)].
  - rewrite Hm, Hc, Z.ltb_irrefl. reflexivity.
  - apply Z.ltb_lt in Hlt. rewrite Hlt.
    unfold passes in Hvalid.
    destruct (valid_chain (snd picked)) as [b|e] eqn:Hv; [|discriminate].
    destruct (valid_chain_has_first _ Hv) as [x Hx].
    apply py_index_first_last in Hx as [-> _]. reflexivity.
Qed.

(** Non-emptiness does not rest on what the registry holds: on any
    object whose chain has a last block, every call leaves a chain that
    has one. *)
Lemma step_keeps_last_block self c b :
  last_block self = Ok b -> exists b', last_block (step self c) = Ok b'.
Proof.
  intros Hlast.
  destruct c as [node_url t|sender recipient amt signature
                |nonce previous_hash t|net]; cbn [step].
  - unfold register_node.
    destruct (urlparse node_url) as [[netloc path]|e]; cbn; [|eauto].
    destruct (String.eqb netloc ""); cbn; [|eauto].
    destruct (String.eqb path ""); cbn; eauto.
  - destruct (py_eq_str sender MINING_SENDER) eqn:Hsender.
    + unfold add_transaction_to_current_array. rewrite Hsender. cbn. eauto.
    + rewrite add_transaction_from_wallet_frame by exact Hsender. eauto.
  - destruct self as [txs ch nd id]. unfold last_block in *. cbn in Hlast.
    unfold create_block_and_add_to_chain, mbind, mget, mlift, mput, mret,
      chain_append.
    cbn [chain transactions].
    destruct (py_len ch) as [n|e]; cbn; [|eauto].
    destruct ch; try solve [cbn; eauto].
    cbn [snd chain set_chain set_transactions].
    destruct l as [|x l]; cbn [app]; [cbn; eauto|].
    rewrite py_index_last. eauto.
  - eapply resolve_conflicts_keeps_last_block; eassumption.
Qed.

End Selection.

(** ** Concrete passes over a registry of addresses *)

(** The scenario of the spec on the sample runtime: from the genesis
    block alone, the search from the hash of the genesis block finds the
    nonce 1999, and the chain sealed with it and the reward validates. *)
Lemma sealed_reward_block_validates :
  hash (RT := Sample.runtime) (genesis 1.5%float) = Ok "66"
  /\ search (RT := Sample.runtime) (PList []) "66" 2000 0 = Some 1999
  /\ chain (run (RT := Sample.runtime) "c0ffee" 1.5%float
              [Add_transaction (PStr MINING_SENDER) (PStr "c0ffee")
                 (PFloat MINING_REWARD) (PStr "");
               Create_block (PInt 1999) (PStr "66") 2.5%float])
     = Sample.peer_chain
  /\ valid_chain (RT := Sample.runtime) Sample.peer_chain = Ok true.
Proof. repeat split; vm_compute; reflexivity. Qed.

(** With addresses as registry values the loop works as meant: the 404
    peer is passed over and the longer valid chain of the next peer is
    adopted. *)
Lemma resolve_conflicts_adopts_with_addresses :
  resolve_conflicts_log (RT := Sample.runtime) Sample.network
    (Sample.node_with_addresses ["10.0.0.2:5000"; "10.0.0.3:5000"]) =
  (Ok true,
   [Print "http://10.0.0.2:5000/chain"; Get "http://10.0.0.2:5000/chain";
    Print "http://10.0.0.3:5000/chain"; Get "http://10.0.0.3:5000/chain"],
   set_chain Sample.peer_chain
     (Sample.node_with_addresses ["10.0.0.2:5000"; "10.0.0.3:5000"])).
Proof. vm_compute. reflexivity. Qed.

(** The object the class builds for the same peer: constructed, then
    [register_node('http://10.0.0.3:5000')].  The registry maps the
    address to the clock reading, the peer serves a longer valid chain,
    and [resolve_conflicts] raises without asking it. *)
Lemma registered_peer_is_never_asked :
  let self :=
    run (RT := Sample.runtime) "c0ffee" 1.5%float
      [Register_node "http://10.0.0.3:5000" 3.5%float] in
  nodes self = [("10.0.0.3:5000", PFloat 3.5%float)]
  /\ fst (resolve_conflicts (RT := Sample.runtime) Sample.network
            (Sample.node_with_addresses ["10.0.0.3:5000"])) = Ok true
  /\ resolve_conflicts_log (RT := Sample.runtime) Sample.network self =
     (Raise TypeError, [], self).
Proof. repeat split; vm_compute; reflexivity. Qed.

(** C6 fails on the code: a peer that cannot be reached is not skipped.
    The exception of the request leaves [resolve_conflicts] and the peer
    after it, whose chain would be adopted, is never asked. *)
Lemma unreachable_peer_aborts_resolve_conflicts :
  resolve_conflicts_log (RT := Sample.runtime) Sample.network
    (Sample.node_with_addresses ["10.0.0.1:5000"; "10.0.0.3:5000"]) =
  (Raise ConnectionError,
   [Print "http://10.0.0.1:5000/chain"; Get "http://10.0.0.1:5000/chain"],
   Sample.node_with_addresses ["10.0.0.1:5000"; "10.0.0.3:5000"])
  /\ fst (resolve_conflicts (RT := Sample.runtime) Sample.network
            (Sample.node_with_addresses ["10.0.0.3:5000"])) = Ok true.
Proof. split; vm_compute; reflexivity. Qed.

Lemma resolve_conflicts_fetch_outcomes_witness :
  (Sample.network "http://10.0.0.2:5000/chain" = Ok Sample.not_found
   /\ status_code Sample.not_found <> 200
   /\ fst (resolve_conflicts (RT := Sample.runtime) Sample.network
             (Sample.node_with_addresses ["10.0.0.2:5000"; "10.0.0.3:5000"]))
      = fst (resolve_conflicts (RT := Sample.runtime) Sample.network
               (Sample.node_with_addresses ["10.0.0.3:5000"])))
  /\ (scan (RT := Sample.runtime) Sample.network [PStr "10.0.0.3:5000"]
        (NInt 1) PNone []
      = (Ok (NInt 2, Sample.peer_chain),
         [Print "http://10.0.0.3:5000/chain"; Get "http://10.0.0.3:5000/chain"])
      /\ Sample.network "http://10.0.0.1:5000/chain" = Raise ConnectionError
      /\ resolve_conflicts_log (RT := Sample.runtime) Sample.network
           (Sample.node_with_addresses ["10.0.0.3:5000"; "10.0.0.1:5000"])
         = (Raise ConnectionError,
            [Print "http://10.0.0.3:5000/chain";
             Get "http://10.0.0.3:5000/chain";
             Print "http://10.0.0.1:5000/chain";
             Get "http://10.0.0.1:5000/chain"],
            Sample.node_with_addresses ["10.0.0.3:5000"; "10.0.0.1:5000"]))
  /\ (scan (RT := Sample.runtime) Sample.network [PStr "10.0.0.3:5000"]
        (NInt 1) PNone []
      = (Ok (NInt 2, Sample.peer_chain),
         [Print "http://10.0.0.3:5000/chain"; Get "http://10.0.0.3:5000/chain"])
      /\ Sample.network "http://10.0.0.4:5000/chain" = Ok Sample.garbled
      /\ status_code Sample.garbled = 200
      /\ json Sample.garbled = Raise ValueError
      /\ resolve_conflicts_log (RT := Sample.runtime) Sample.network
           (Sample.node_with_addresses
              ["10.0.0.3:5000"; "10.0.0.4:5000"; "10.0.0.2:5000"])
         = (Raise ValueError,
            [Print "http://10.0.0.3:5000/chain";
             Get "http://10.0.0.3:5000/chain";
             Print "http://10.0.0.4:5000/chain";
             Get "http://10.0.0.4:5000/chain"],
            Sample.node_with_addresses
              ["10.0.0.3:5000"; "10.0.0.4:5000"; "10.0.0.2:5000"]))
  /\ (scan (RT := Sample.runtime) Sample.network [PStr "10.0.0.2:5000"]
        (NInt 1) PNone []
      = (Ok (NInt 1, PNone),
         [Print "http://10.0.0.2:5000/chain"; Get "http://10.0.0.2:5000/chain"])
      /\ Sample.network "http://10.0.0.5:5000/chain" = Ok Sample.no_length
      /\ status_code Sample.no_length = 200
      /\ json Sample.no_length = Ok (PDict [("chain", Sample.peer_chain)])
      /\ py_getitem (PDict [("chain", Sample.peer_chain)]) "length"
         = Raise (KeyError (PStr "length"))
      /\ resolve_conflicts_log (RT := Sample.runtime) Sample.network
           (Sample.node_with_addresses ["10.0.0.2:5000"; "10.0.0.5:5000"])
         = (Raise (KeyError (PStr "length")),
            [Print "http://10.0.0.2:5000/chain";
             Get "http://10.0.0.2:5000/chain";
             Print "http://10.0.0.5:5000/chain";
             Get "http://10.0.0.5:5000/chain"],
            Sample.node_with_addresses ["10.0.0.2:5000"; "10.0.0.5:5000"])).
Proof.
  pose (txs := @nil pyval).
  pose (l := [genesis 1.5%float]).
  pose (thm := fun p =>
          resolve_conflicts_fetch_outcomes (RT := Sample.runtime)
            Sample.network p txs l "c0ffee").
  pose (served := [("10.0.0.3:5000", PStr "10.0.0.3:5000")]).
  pose (asked := [Print "http://10.0.0.3:5000/chain";
                  Get "http://10.0.0.3:5000/chain"]).
  split; [|split; [|split]].
  - split; [reflexivity|]. split; [discriminate|].
    apply (proj1 (thm "10.0.0.2:5000") Sample.not_found "10.0.0.2:5000"
             [] served);
      [reflexivity|discriminate].
  - split; [vm_compute; reflexivity|]. split; [reflexivity|].
    refine (proj1 (proj2 (thm "10.0.0.1:5000")) ConnectionError
              "10.0.0.1:5000" served [] (NInt 2) Sample.peer_chain asked _ _);
      vm_compute; reflexivity.
  - split; [vm_compute; reflexivity|].
    split; [reflexivity|]. split; [reflexivity|]. split; [reflexivity|].
    refine (proj1 (proj2 (proj2 (thm "10.0.0.4:5000"))) Sample.garbled
              ValueError "10.0.0.4:5000" served
              [("10.0.0.2:5000", PStr "10.0.0.2:5000")]
              (NInt 2) Sample.peer_chain asked _ _ _ _);
      vm_compute; reflexivity.
  - split; [vm_compute; reflexivity|].
    split; [reflexivity|]. split; [reflexivity|]. split; [reflexivity|].
    split; [reflexivity|].
    refine (proj2 (proj2 (proj2 (thm "10.0.0.5:5000"))) Sample.no_length
              (PDict [("chain", Sample.peer_chain)])
              (KeyError (PStr "length")) "10.0.0.5:5000"
              [("10.0.0.2:5000", PStr "10.0.0.2:5000")] []
              (NInt 1) PNone
              [Print "http://10.0.0.2:5000/chain";
               Get "http://10.0.0.2:5000/chain"] _ _ _ _ _);
      vm_compute; reflexivity.
Defined.

(** * Further properties of the module *)

(** ** [valid_chain] on lists *)

Section Walk.

Context {RT : Runtime}.

Lemma position_in_range n i :
  (i < n)%nat -> position n (Z.of_nat i) = Some i.
Proof.
  intros Hi. unfold position.
  replace (0 <=? Z.of_nat i) with true by (symmetry; apply Z.leb_le; lia).
  replace (Z.of_nat i <? Z.of_nat n) with true
    by (symmetry; apply Z.ltb_lt; lia).
  cbn [andb]. now rewrite Nat2Z.id.
Qed.

Lemma py_index_middle (pre rest : list pyval) (block : pyval) :
  py_index (PList (pre ++ block :: rest)) (Z.of_nat (List.length pre)) = Ok block.
Proof.
  cbn [py_index]. rewrite position_in_range.
  - rewrite nth_error_app2 by lia. now rewrite Nat.sub_diag.
  - rewrite length_app. cbn [List.length]. lia.
Qed.

(** The loop entered at an index is the walk over the blocks from that
    index on. *)
Lemma valid_chain_loop_links :
  forall rest pre last_block,
    valid_chain_loop (PList (pre ++ rest)) (List.length rest) last_block
      (Z.of_nat (List.length pre)) =
    links last_block rest.
Proof.
  induction rest as [|block rest IH]; intros pre last_block; [reflexivity|].
  cbn [List.length valid_chain_loop links].
  rewrite py_index_middle. cbn [rbind]. unfold check_block.
  destruct (py_getitem block "previous_hash") as [previous_hash|e];
    cbn [rbind]; [|reflexivity].
  destruct (hash last_block) as [last_hash|e]; cbn [rbind]; [|reflexivity].
  destruct (py_ne_str previous_hash last_hash); cbn [rbind]; [reflexivity|].
  destruct (py_getitem block "transactions") as [all|e];
    cbn [rbind]; [|reflexivity].
  destruct (py_drop_last all) as [but_last|e]; cbn [rbind]; [|reflexivity].
  destruct (py_iter but_last) as [elements|e]; cbn [rbind]; [|reflexivity].
  destruct (collect rebuild elements) as [txs|e]; cbn [rbind]; [|reflexivity].
  destruct (py_getitem block "nonce") as [nonce|e]; cbn [rbind]; [|reflexivity].
  destruct (valid_proof (PList txs) previous_hash nonce MINING_DIFFICULTY);
    cbn [negb]; [|reflexivity].
  specialize (IH (pre ++ [block]) block).
  rewrite <- app_assoc, length_app in IH. cbn [app List.length] in IH.
  rewrite <- IH. f_equal. lia.
Qed.

(** [valid_chain] on a list is the walk from its first block. *)
Lemma valid_chain_links first rest :
  valid_chain (PList (first :: rest)) = links first rest.
Proof.
  unfold valid_chain. cbn [py_index position List.length py_len rbind].
  replace (position (S (List.length rest)) 0) with (Some 0%nat)
    by (symmetry; apply (position_in_range (n := S (List.length rest)) (i := 0));
        lia).
  cbn [nth_error rbind].
  replace (Z.to_nat (Z.of_nat (S (List.length rest)) - 1))
    with (List.length rest) by lia.
  apply (valid_chain_loop_links rest [first] first).
Qed.

Lemma rbind_bool_eta (r : result bool) :
  (ok <- r ;; if ok then Ok true else Ok false) = r.
Proof. destruct r as [[|]|e]; reflexivity. Qed.

(** The walk over a list with one more block at the end: the walk over
    the list, then the test of the new block against the last one. *)
Lemma links_snoc block :
  forall rest first,
    links first (rest ++ [block]) =
    (ok <- links first rest ;;
     if ok then check_block (last rest first) block else Ok false).
Proof.
  induction rest as [|b rest IH]; intros first.
  - cbn [app links rbind last]. apply rbind_bool_eta.
  - cbn [app links]. rewrite IH. rewrite last_cons_default.
    destruct (check_block first b) as [[|]|e]; reflexivity.
Qed.

(** A walk that ends in true has passed every pair of neighbours. *)
Lemma links_true_neighbours :
  forall rest first i b b',
    links first rest = Ok true ->
    nth_error (first :: rest) i = Some b ->
    nth_error (first :: rest) (S i) = Some b' ->
    check_block b b' = Ok true.
Proof.
  induction rest as [|block rest IH]; intros first i b b' Hlinks Hb Hb'.
  - destruct i; discriminate Hb'.
  - cbn [links] in Hlinks.
    destruct (check_block first block) as [[|]|e] eqn:Hcheck;
      cbn [rbind] in Hlinks; try discriminate.
    destruct i as [|i].
    + cbn in Hb, Hb'. now injection Hb as <-; injection Hb' as <-.
    + cbn [nth_error] in Hb. eapply IH; eassumption.
Qed.

Lemma py_eq_str_true v s : py_eq_str v s = true -> v = PStr s.
Proof.
  destruct v; cbn; try discriminate.
  intros H. apply String.eqb_eq in H. now subst.
Qed.

(** What a passed test says about the two blocks. *)
Lemma check_block_true last_block block :
  check_block last_block block = Ok true ->
  exists last_hash nonce all but_last elements txs,
    hash last_block = Ok last_hash
    /\ py_getitem block "previous_hash" = Ok (PStr last_hash)
    /\ py_getitem block "nonce" = Ok nonce
    /\ py_getitem block "transactions" = Ok all
    /\ py_drop_last all = Ok but_last
    /\ py_iter but_last = Ok elements
    /\ collect rebuild elements = Ok txs
    /\ valid_proof (PList txs) (PStr last_hash) nonce MINING_DIFFICULTY = true.
Proof.
  unfold check_block. intros H.
  destruct (py_getitem block "previous_hash") as [previous_hash|e];
    cbn [rbind] in H; [|discriminate].
  destruct (hash last_block) as [last_hash|e]; cbn [rbind] in H; [|discriminate].
  unfold py_ne_str in H.
  destruct (py_eq_str previous_hash last_hash) eqn:Heq; cbn [negb] in H;
    [|discriminate].
  apply py_eq_str_true in Heq. subst previous_hash.
  destruct (py_getitem block "transactions") as [all|e];
    cbn [rbind] in H; [|discriminate].
  destruct (py_drop_last all) as [but_last|e] eqn:Hdrop; cbn [rbind] in H;
    [|discriminate].
  destruct (py_iter but_last) as [elements|e] eqn:Hiter; cbn [rbind] in H;
    [|discriminate].
  destruct (collect rebuild elements) as [txs|e] eqn:Hcollect; cbn [rbind] in H;
    [|discriminate].
  destruct (py_getitem block "nonce") as [nonce|e]; cbn [rbind] in H;
    [|discriminate].
  injection H as H.
  exists last_hash, nonce, all, but_last, elements, txs. repeat split; auto.
Qed.

(** The test of a block built by [create_block_and_add_to_chain]: its
    number and its clock reading play no part, and of its transactions
    all but the last are rebuilt. *)
Lemma check_block_new_block last_block number t all nonce previous_hash :
  check_block last_block (new_block number t all nonce previous_hash) =
  (last_hash <- hash last_block ;;
   if py_ne_str previous_hash last_hash then Ok false
   else
     txs <- collect rebuild (removelast all) ;;
     Ok (valid_proof (PList txs) previous_hash nonce MINING_DIFFICULTY)).
Proof. reflexivity. Qed.

(** X1.  [valid_chain] returns, true or false, only on a chain that has
    a first and a last element and counts as true in an [if]: on an empty
    chain, and on a JSON value that is no sequence, it raises instead of
    returning false. *)
Theorem valid_chain_returns_on_nonempty :
  forall chain b,
    valid_chain chain = Ok b ->
    py_truthy chain = true
    /\ exists first last,
         py_index chain 0 = Ok first /\ py_index chain (-1) = Ok last.
Proof.
  intros c b Hvalid.
  destruct (valid_chain_has_first _ Hvalid) as [first Hfirst].
  destruct (py_index_first_last _ Hfirst) as [Htruthy [lst Hlast]].
  split; [exact Htruthy|]. now exists first, lst.
Qed.

(** X2.  When [valid_chain] returns true on a list, every block after
    the first carries as previous hash the hash of the block before it,
    and its nonce passes [valid_proof], at the mining difficulty, with
    that hash and the block's transactions but the last, rebuilt. *)
Theorem valid_chain_true_links :
  forall l i b b',
    valid_chain (PList l) = Ok true ->
    nth_error l i = Some b ->
    nth_error l (S i) = Some b' ->
    exists last_hash nonce all but_last elements txs,
      hash b = Ok last_hash
      /\ py_getitem b' "previous_hash" = Ok (PStr last_hash)
      /\ py_getitem b' "nonce" = Ok nonce
      /\ py_getitem b' "transactions" = Ok all
      /\ py_drop_last all = Ok but_last
      /\ py_iter but_last = Ok elements
      /\ collect rebuild elements = Ok txs
      /\ valid_proof (PList txs) (PStr last_hash) nonce MINING_DIFFICULTY = true.
Proof.
  intros l i b b' Hvalid Hb Hb'.
  destruct l as [|first rest]; [destruct i; discriminate Hb|].
  rewrite valid_chain_links in Hvalid.
  apply check_block_true.
  eapply links_true_neighbours; eassumption.
Qed.

(** X3.  [valid_chain] never reads the number, the clock reading or the
    last transaction of the last block of a chain: two chains that
    differ in nothing else get the same answer. *)
Theorem valid_chain_blind_to_last_transaction :
  forall first rest txs nonce previous_hash number t x number' t' x',
    valid_chain
      (PList (first :: rest ++
                [new_block number t (txs ++ [x]) nonce previous_hash])) =
    valid_chain
      (PList (first :: rest ++
                [new_block number' t' (txs ++ [x']) nonce previous_hash])).
Proof.
  intros. rewrite !valid_chain_links, !links_snoc, !check_block_new_block.
  now rewrite !removelast_last.
Qed.

(** X4.  Sealing keeps a valid chain valid: when [valid_chain] returns
    true on the chain of an object, at most one transaction is pending,
    and the block is sealed with the hash of the last block and a nonce
    that qualifies for that hash and the empty list, [valid_chain]
    returns true on the chain after
    [create_block_and_add_to_chain]. *)
Theorem sealing_keeps_chain_valid :
  forall first rest txs nd id nonce last_hash now,
    valid_chain (PList (first :: rest)) = Ok true ->
    hash (last rest first) = Ok last_hash ->
    (List.length txs <= 1)%nat ->
    valid_proof (PList []) (PStr last_hash) nonce MINING_DIFFICULTY = true ->
    valid_chain
      (chain (snd (create_block_and_add_to_chain nonce (PStr last_hash) now
                     {| transactions := txs; chain := PList (first :: rest);
                        nodes := nd; node_id := id |}))) = Ok true.
Proof.
  intros first rest txs nd id nonce last_hash now Hvalid Hhash Htxs Hproof.
  rewrite valid_chain_links in Hvalid.
  change (valid_chain
            (PList (first :: rest ++
                      [new_block (Z.of_nat (List.length (first :: rest)) + 1)
                         now txs nonce (PStr last_hash)])) = Ok true).
  rewrite valid_chain_links, links_snoc, Hvalid. cbn [rbind].
  rewrite check_block_new_block, Hhash. cbn [rbind].
  unfold py_ne_str, py_eq_str. rewrite String.eqb_refl. cbn [negb].
  replace (removelast txs) with (@nil pyval).
  - cbn [collect rbind]. now rewrite Hproof.
  - destruct txs as [|x [|y txs]]; [reflexivity|reflexivity|cbn in Htxs; lia].
Qed.

End Walk.

Lemma valid_chain_returns_on_nonempty_witness :
  valid_chain (RT := Sample.runtime) (PList [PNone]) = Ok true
  /\ py_truthy (PList [PNone]) = true
  /\ exists first last,
       py_index (PList [PNone]) 0 = Ok first
       /\ py_index (PList [PNone]) (-1) = Ok last.
Proof.
  split; [reflexivity|].
  apply (@valid_chain_returns_on_nonempty Sample.runtime (PList [PNone]) true).
  reflexivity.
Defined.

Lemma valid_chain_true_links_witness :
  valid_chain (RT := Sample.runtime) Sample.peer_chain = Ok true
  /\ exists last_hash nonce all but_last elements txs,
       hash (RT := Sample.runtime) (genesis 1.5%float) = Ok last_hash
       /\ py_getitem
            (new_block 2 2.5%float [Sample.reward] (PInt 1999) (PStr "66"))
            "previous_hash" = Ok (PStr last_hash)
       /\ py_getitem
            (new_block 2 2.5%float [Sample.reward] (PInt 1999) (PStr "66"))
            "nonce" = Ok nonce
       /\ py_getitem
            (new_block 2 2.5%float [Sample.reward] (PInt 1999) (PStr "66"))
            "transactions" = Ok all
       /\ py_drop_last all = Ok but_last
       /\ py_iter but_last = Ok elements
       /\ collect rebuild elements = Ok txs
       /\ valid_proof (RT := Sample.runtime) (PList txs) (PStr last_hash) nonce
            MINING_DIFFICULTY = true.
Proof.
  split; [vm_compute; reflexivity|].
  apply (@valid_chain_true_links Sample.runtime
           [genesis 1.5%float;
            new_block 2 2.5%float [Sample.reward] (PInt 1999) (PStr "66")]
           0%nat).
  - vm_compute; reflexivity.
  - reflexivity.
  - reflexivity.
Defined.

Lemma sealing_keeps_chain_valid_witness :
  valid_chain (RT := Sample.runtime) (PList [genesis 1.5%float]) = Ok true
  /\ hash (RT := Sample.runtime) (last [] (genesis 1.5%float)) = Ok "66"
  /\ (List.length [Sample.reward] <= 1)%nat
  /\ valid_proof (RT := Sample.runtime) (PList []) (PStr "66") (PInt 1999)
       MINING_DIFFICULTY = true
  /\ valid_chain (RT := Sample.runtime)
       (chain (snd (create_block_and_add_to_chain (PInt 1999) (PStr "66")
                      2.5%float
                      {| transactions := [Sample.reward];
                         chain := PList [genesis 1.5%float];
                         nodes := []; node_id := "c0ffee" |}))) = Ok true.
Proof.
  split; [reflexivity|]. split; [vm_compute; reflexivity|].
  split; [cbn; lia|]. split; [vm_compute; reflexivity|].
  apply (sealing_keeps_chain_valid (RT := Sample.runtime)).
  - reflexivity.
  - vm_compute; reflexivity.
  - cbn; lia.
  - vm_compute; reflexivity.
Defined.

(** ** [valid_proof] and the search *)

Section Difficulty.

Context {RT : Runtime}.

Lemma substring_0_0 s : substring 0 0 s = "".
Proof. destruct s; reflexivity. Qed.

(** A string that starts with [n] copies of a character starts with any
    smaller number of copies. *)
Lemma prefix_replicate_shorter c :
  forall n s m,
    substring 0 n s = replicate c n -> (m <= n)%nat ->
    substring 0 m s = replicate c m.
Proof.
  induction n as [|n IH]; intros s m Hn Hm.
  - replace m with 0%nat by lia. apply substring_0_0.
  - destruct m as [|m]; [apply substring_0_0|].
    destruct s as [|a s]; [discriminate Hn|].
    cbn in Hn |- *. injection Hn as -> Hn.
    f_equal. apply IH; [exact Hn|lia].
Qed.

Lemma length_substring_0 : forall n s,
  (String.length (substring 0 n s) <= String.length s)%nat.
Proof.
  induction n as [|n IH]; intros s.
  - rewrite substring_0_0. cbn. lia.
  - destruct s as [|a s]; cbn; [lia|]. specialize (IH s). lia.
Qed.

Lemma length_replicate c n : String.length (replicate c n) = n.
Proof. induction n as [|n IH]; cbn; [reflexivity|now rewrite IH]. Qed.

(** X5.  For a guess that can be built (the transactions a list of
    dictionaries of scalars, the last hash and the nonce scalars, every
    integer within the digits CPython prints), difficulty 0 accepts the
    nonce, and a nonce accepted at a difficulty is accepted at every
    smaller difficulty down to 0. *)
Theorem valid_proof_easier :
  forall transactions last_hash nonce,
    flat_transactions transactions = true ->
    scalar last_hash = true ->
    scalar nonce = true ->
    valid_proof transactions last_hash nonce 0 = true
    /\ forall d d',
         0 <= d' <= d ->
         valid_proof transactions last_hash nonce d = true ->
         valid_proof transactions last_hash nonce d' = true.
Proof.
  intros txs last_hash nonce _ _ _.
  unfold valid_proof, py_prefix, py_zeros. split.
  - cbn. now rewrite substring_0_0.
  - intros d d' Hd H.
    replace (0 <=? d) with true in H by (symmetry; apply Z.leb_le; lia).
    replace (0 <=? d') with true by (symmetry; apply Z.leb_le; lia).
    apply String.eqb_eq in H. apply String.eqb_eq.
    apply (prefix_replicate_shorter _ _ H). lia.
Qed.

(** X6.  A difficulty greater than the length of the digest accepts no
    nonce. *)
Theorem valid_proof_beyond_digest :
  forall transactions last_hash nonce d,
    (String.length
       (sha256_hexdigest
          (py_str transactions ++ py_str last_hash ++ py_str nonce)%string)
     < Z.to_nat d)%nat ->
    valid_proof transactions last_hash nonce d = false.
Proof.
  intros txs last_hash nonce d Hd. unfold valid_proof, py_prefix, py_zeros.
  replace (0 <=? d) with true by (symmetry; apply Z.leb_le; lia).
  apply String.eqb_neq. intros Heq.
  apply (f_equal String.length) in Heq. rewrite length_replicate in Heq.
  pose proof (length_substring_0 (Z.to_nat d)
                (sha256_hexdigest
                   (py_str txs ++ py_str last_hash ++ py_str nonce)%string)).
  lia.
Qed.

(** The loop does not return a nonce at or beyond the number of tests it
    is allowed. *)
Lemma search_within_fuel transactions last_hash :
  forall fuel start nonce,
    search transactions last_hash fuel start = Some nonce ->
    nonce < start + Z.of_nat fuel.
Proof.
  induction fuel as [|fuel IH]; intros start nonce; cbn [search];
    [discriminate|].
  destruct (valid_proof transactions (PStr last_hash) (PInt start)
              MINING_DIFFICULTY).
  - intros [= <-]. lia.
  - intros H. apply IH in H. lia.
Qed.

Lemma search_none transactions last_hash :
  forall fuel start,
    search transactions last_hash fuel start = None <->
    forall m, start <= m < start + Z.of_nat fuel ->
      valid_proof transactions (PStr last_hash) (PInt m) MINING_DIFFICULTY
      = false.
Proof.
  induction fuel as [|fuel IH]; intros start; cbn [search].
  - split; [intros _ m Hm; lia|reflexivity].
  - destruct (valid_proof transactions (PStr last_hash) (PInt start)
                MINING_DIFFICULTY) eqn:Hstart.
    + split; [discriminate|].
      intros H. rewrite (H start) in Hstart by lia. discriminate.
    + rewrite IH. split; intros H m Hm.
      * destruct (Z.eq_dec m start) as [->|Hne]; [exact Hstart|].
        apply H. lia.
      * apply H. lia.
Qed.

(** X7.  The loop of [proof_of_work], run from nonce 0 for a number of
    tests: it returns a nonce exactly when that nonce is the least one
    [valid_proof] accepts and lies within the tests, and it is still
    running after them exactly when no nonce among them is accepted. *)
Theorem search_least_nonce :
  forall transactions last_hash fuel,
    (forall nonce,
       search transactions last_hash fuel 0 = Some nonce <->
       (0 <= nonce < Z.of_nat fuel
        /\ valid_proof transactions (PStr last_hash) (PInt nonce)
             MINING_DIFFICULTY = true
        /\ forall m, 0 <= m < nonce ->
             valid_proof transactions (PStr last_hash) (PInt m)
               MINING_DIFFICULTY = false))
    /\ (search transactions last_hash fuel 0 = None <->
        forall m, 0 <= m < Z.of_nat fuel ->
          valid_proof transactions (PStr last_hash) (PInt m)
            MINING_DIFFICULTY = false).
Proof.
  intros txs last_hash fuel. split.
  - intros nonce. split.
    + intros H. pose proof (search_within_fuel _ _ _ _ H) as Hfuel.
      destruct (search_sound _ _ _ _ H) as (Hle & Hok & Hleast).
      repeat split; [lia|lia|exact Hok|exact Hleast].
    + intros ([Hle Hfuel] & Hok & Hleast).
      apply search_complete; try assumption. lia.
  - apply search_none.
Qed.

End Difficulty.

Lemma valid_proof_easier_witness :
  flat_transactions (PList []) = true
  /\ scalar (PStr "66") = true
  /\ scalar (PInt 1999) = true
  /\ valid_proof (RT := Sample.runtime) (PList []) (PStr "66") (PInt 1999) 0
     = true
  /\ 0 <= 1 <= 2
  /\ valid_proof (RT := Sample.runtime) (PList []) (PStr "66") (PInt 1999) 2
     = true
  /\ valid_proof (RT := Sample.runtime) (PList []) (PStr "66") (PInt 1999) 1
     = true.
Proof.
  assert (Hint : scalar (PInt 1999) = true) by (vm_compute; reflexivity).
  pose (thm := valid_proof_easier (RT := Sample.runtime)
                 (PList []) (PStr "66") (PInt 1999)
                 eq_refl eq_refl Hint).
  split; [reflexivity|]. split; [reflexivity|]. split; [exact Hint|].
  split; [exact (proj1 thm)|]. split; [lia|].
  split; [vm_compute; reflexivity|].
  apply (proj2 thm 2 1).
  - lia.
  - vm_compute; reflexivity.
Defined.

Lemma valid_proof_beyond_digest_witness :
  (String.length
     (@sha256_hexdigest Sample.runtime
        (@py_str Sample.runtime (PList [])
         ++ @py_str Sample.runtime (PStr "66")
         ++ @py_str Sample.runtime (PInt 0))%string)
   < Z.to_nat 3)%nat
  /\ valid_proof (RT := Sample.runtime) (PList []) (PStr "66") (PInt 0) 3
     = false.
Proof.
  split; [cbn; lia|].
  apply (valid_proof_beyond_digest (RT := Sample.runtime)).
  cbn; lia.
Defined.

Lemma search_least_nonce_witness :
  search (RT := Sample.runtime) (PList []) "66" 2000 0 = Some 1999
  /\ 0 <= 1999 < Z.of_nat 2000
  /\ valid_proof (RT := Sample.runtime) (PList []) (PStr "66") (PInt 1999)
       MINING_DIFFICULTY = true
  /\ forall m, 0 <= m < 1999 ->
       valid_proof (RT := Sample.runtime) (PList []) (PStr "66") (PInt m)
         MINING_DIFFICULTY = false.
Proof.
  split; [vm_compute; reflexivity|].
  apply (proj1 (proj1 (search_least_nonce (RT := Sample.runtime)
                         (PList []) "66" 2000) 1999)).
  vm_compute; reflexivity.
Defined.

(** ** The node registry *)

Section Registry.

Context {RT : Runtime}.

Lemma lookup_setitem_same k v d : lookup k (setitem k v d) = Some v.
Proof.
  induction d as [|[k' v'] d IH]; cbn.
  - now rewrite String.eqb_refl.
  - destruct (String.eqb k k') eqn:Hk; cbn.
    + now rewrite String.eqb_refl.
    + now rewrite Hk.
Qed.

Lemma lookup_setitem_other k k' v d :
  k' <> k -> lookup k' (setitem k v d) = lookup k' d.
Proof.
  intros Hne. induction d as [|[k0 v0] d IH]; cbn.
  - destruct (String.eqb_spec k' k); [contradiction|reflexivity].
  - destruct (String.eqb_spec k k0) as [->|Hk]; cbn.
    + destruct (String.eqb_spec k' k0); [contradiction|reflexivity].
    + destruct (String.eqb k' k0); [reflexivity|exact IH].
Qed.

(** A key that is present keeps its place; a new key goes last. *)
Lemma keys_setitem k v d :
  map fst (setitem k v d) =
  match lookup k d with
  | Some _ => map fst d
  | None => map fst d ++ [k]
  end.
Proof.
  induction d as [|[k' v'] d IH]; cbn; [reflexivity|].
  destruct (String.eqb_spec k k') as [->|Hk]; cbn; [reflexivity|].
  rewrite IH. now destruct (lookup k d).
Qed.

Lemma lookup_none_not_key k d : lookup k d = None -> ~ In k (map fst d).
Proof.
  induction d as [|[k' v'] d IH]; cbn; [tauto|].
  destruct (String.eqb_spec k k') as [->|Hk]; [discriminate|].
  intros H [Heq|Hin]; [now subst|now apply IH].
Qed.

Lemma keys_setitem_nodup k v d :
  NoDup (map fst d) -> NoDup (map fst (setitem k v d)).
Proof.
  intros Hd. rewrite keys_setitem.
  destruct (lookup k d) eqn:Hk; [exact Hd|].
  apply NoDup_app; [exact Hd|repeat constructor; tauto|].
  intros x Hx [<-|[]]. now apply (lookup_none_not_key _ _ Hk).
Qed.

(** X8.  [register_node] on a URL whose address (the netloc, or the path
    when there is no netloc) is not empty returns and stores the clock
    reading under that address: looking the address up gives the
    reading, every other entry is as before, an address already present
    keeps its place and a new one goes last, and nothing but the registry
    changes. *)
Theorem register_node_stores_address :
  forall node_url t self netloc path,
    urlparse node_url = Ok (netloc, path) ->
    let key := if String.eqb netloc "" then path else netloc in
    key <> "" ->
    let self' := snd (register_node node_url t self) in
    fst (register_node node_url t self) = Ok tt
    /\ lookup key (nodes self') = Some (PFloat t)
    /\ (forall k, k <> key -> lookup k (nodes self') = lookup k (nodes self))
    /\ map fst (nodes self') =
       match lookup key (nodes self) with
       | Some _ => map fst (nodes self)
       | None => map fst (nodes self) ++ [key]
       end
    /\ chain self' = chain self
    /\ transactions self' = transactions self
    /\ node_id self' = node_id self.
Proof.
  intros node_url t self netloc path Hurl key Hkey self'.
  assert (Hrun : register_node node_url t self =
                 (Ok tt, set_nodes (setitem key (PFloat t) (nodes self)) self)).
  { unfold register_node. rewrite Hurl. subst key.
    destruct (String.eqb netloc ""); cbn [negb]; [|reflexivity].
    destruct (String.eqb_spec path ""); [contradiction|reflexivity]. }
  subst self'. rewrite Hrun. cbn [fst snd set_nodes nodes chain transactions node_id].
  repeat split.
  - apply lookup_setitem_same.
  - intros k Hk. now apply lookup_setitem_other.
  - apply keys_setitem.
Qed.

(** What a call does to the registry: nothing, or one assignment of a
    clock reading. *)
Lemma step_nodes self c :
  nodes (step self c) = nodes self
  \/ exists k f, nodes (step self c) = setitem k (PFloat f) (nodes self).
Proof.
  destruct c as [node_url t|sender recipient amt signature
                |nonce previous_hash t|net]; cbn [step].
  - unfold register_node.
    destruct (urlparse node_url) as [[netloc path]|e]; cbn; [|now left].
    destruct (String.eqb netloc ""); cbn; [|right; eauto].
    destruct (String.eqb path ""); cbn; [now left|right; eauto].
  - left. destruct (py_eq_str sender MINING_SENDER) eqn:Hsender.
    + unfold add_transaction_to_current_array. now rewrite Hsender.
    + now rewrite add_transaction_from_wallet_frame.
  - left. unfold create_block_and_add_to_chain, mbind, mget, mlift, mput, mret,
      chain_append.
    destruct (py_len (chain self)) as [n|e]; cbn; [|reflexivity].
    destruct (chain self); reflexivity.
  - left. apply resolve_conflicts_frame.
Qed.

(** X9.  In every run of the class the registry holds each address
    once. *)
Theorem registry_addresses_distinct :
  forall uuid now calls, NoDup (map fst (nodes (run uuid now calls))).
Proof.
  intros uuid now calls. unfold run.
  assert (Hinit : NoDup (map fst (nodes (init uuid now)))) by constructor.
  revert Hinit. generalize (init uuid now).
  induction calls as [|c calls IH]; intros self Hself; [exact Hself|].
  cbn [fold_left]. apply IH.
  destruct (step_nodes self c) as [->|(k & f & ->)];
    [exact Hself|now apply keys_setitem_nodup].
Qed.

End Registry.

Lemma register_node_stores_address_witness :
  @urlparse Sample.runtime "http://10.0.0.3:5000"
    = Ok ("10.0.0.3:5000", "")
  /\ "10.0.0.3:5000" <> ""
  /\ lookup "10.0.0.3:5000"
       (nodes (snd (register_node (RT := Sample.runtime)
                      "http://10.0.0.3:5000" 3.5%float
                      (init "c0ffee" 1.5%float))))
     = Some (PFloat 3.5%float).
Proof.
  split; [reflexivity|]. split; [discriminate|].
  apply (register_node_stores_address (RT := Sample.runtime)
           "http://10.0.0.3:5000" 3.5%float (init "c0ffee" 1.5%float)
           (netloc := "10.0.0.3:5000") (path := "")).
  - reflexivity.
  - discriminate.
Defined.

(** ** What [resolve_conflicts] installs and asks *)

Section Resolver.

Context {RT : Runtime}.

(** X10.  Whatever the registry holds and whatever the peers answer,
    [resolve_conflicts] returns true only after it has replaced the chain
    by one on which [valid_chain] returned true, changing nothing else;
    when it returns false or raises, the object is as it was. *)
Theorem resolve_conflicts_installs_valid_chain :
  forall net self,
    match resolve_conflicts net self with
    | (Ok true, self') =>
        valid_chain (chain self') = Ok true
        /\ self' = set_chain (chain self') self
    | (_, self') => self' = self
    end.
Proof.
  intros net self. unfold resolve_conflicts, resolve_conflicts_log.
  destruct (py_len (chain self)) as [n|e]; [|reflexivity].
  destruct (scan net (map snd (nodes self)) (NInt n) PNone [])
    as [[[m c]|e] log] eqn:Hscan; [|reflexivity].
  destruct (py_truthy c) eqn:Htruthy; [|reflexivity].
  apply scan_keeps_valid in Hscan as [->|Hvalid]; [discriminate|].
  cbn [chain set_chain]. split; [exact Hvalid|reflexivity].
Qed.

(** The log of a scan: a pair of events for each node asked, and the
    nodes asked are strings at the head of the list of neighbours. *)
Lemma scan_log net :
  forall neighbours max_length new_chain log,
    exists asked rest,
      snd (scan net neighbours max_length new_chain log) =
        log ++ flat_map (fun node => [Print (chain_url node);
                                      Get (chain_url node)]) asked
      /\ neighbours = map PStr asked ++ rest.
Proof.
  induction neighbours as [|node neighbours IH]; intros max_length new_chain log.
  - exists [], []. cbn. now rewrite app_nil_r.
  - cbn [scan].
    destruct node; cbn [py_concat3];
      try (eexists [], (_ :: neighbours); split;
           [cbn [snd flat_map]; now rewrite app_nil_r|reflexivity]).
    change ("http://" ++ s ++ "/chain")%string with (chain_url s).
    assert (Hstop : exists asked rest,
               log ++ [Print (chain_url s); Get (chain_url s)] =
                 log ++ flat_map (fun node => [Print (chain_url node);
                                               Get (chain_url node)]) asked
               /\ PStr s :: neighbours = map PStr asked ++ rest).
    { exists [s], neighbours. split; reflexivity. }
    assert (Hnext : forall m c,
               exists asked rest,
                 snd (scan net neighbours m c
                        (log ++ [Print (chain_url s); Get (chain_url s)])) =
                   log ++ flat_map (fun node => [Print (chain_url node);
                                                 Get (chain_url node)]) asked
                 /\ PStr s :: neighbours = map PStr asked ++ rest).
    { intros m c.
      destruct (IH m c (log ++ [Print (chain_url s); Get (chain_url s)]))
        as (asked & rest & Hlog & Hns).
      exists (s :: asked), rest. split.
      - rewrite Hlog, <- app_assoc. reflexivity.
      - cbn. now rewrite Hns. }
    destruct (net (chain_url s)) as [r|e]; [|exact Hstop].
    destruct (status_code r =? 200); [|apply Hnext].
    destruct (consider r max_length new_chain) as [[m c]|e];
      [apply Hnext|exact Hstop].
Qed.

(** X11.  [resolve_conflicts] prints and requests nothing but chain URLs
    built from values of the registry: its log is one print and one
    request, in this order and for the same URL, per node asked, and the
    nodes asked are values of the registry taken in its order from the
    first on, each at most once per entry. *)
Theorem resolve_conflicts_asks_registry_values :
  forall net self,
    exists asked rest,
      snd (fst (resolve_conflicts_log net self)) =
        flat_map (fun node => [Print (chain_url node); Get (chain_url node)])
          asked
      /\ map snd (nodes self) = map PStr asked ++ rest.
Proof.
  intros net self. unfold resolve_conflicts_log.
  destruct (py_len (chain self)) as [n|e].
  - destruct (scan_log net (map snd (nodes self)) (NInt n) PNone [])
      as (asked & rest & Hlog & Hns).
    exists asked, rest. split; [|exact Hns].
    destruct (scan net (map snd (nodes self)) (NInt n) PNone [])
      as [[[m c]|e] log]; cbn [snd] in Hlog; subst log.
    + destruct (py_truthy c); reflexivity.
    + reflexivity.
  - exists [], (map snd (nodes self)). split; reflexivity.
Qed.

End Resolver.

(** ** The ledger over a run *)

Section Ledger.

Context {RT : Runtime}.

(** What a call does to the chain and the pending buffer of an object
    the class builds. *)
Lemma step_ledger now self c :
  well_formed now self ->
  exists l,
    chain self = PList l
    /\ (transactions (step self c), chain (step self c)) =
       match c with
       | Add_transaction sender recipient amt _ =>
           (transactions self ++ minted c, PList l)
       | Create_block nonce previous_hash t =>
           ([], PList (l ++ [new_block (Z.of_nat (List.length l) + 1) t
                               (transactions self) nonce previous_hash]))
       | _ => (transactions self, PList l)
       end.
Proof.
  intros Hwf. pose proof Hwf as [[rest Hchain] Hnodes].
  exists (genesis now :: rest). split; [exact Hchain|].
  destruct c as [node_url t|sender recipient amt signature
                |nonce previous_hash t|net]; cbn [step].
  - rewrite <- Hchain. unfold register_node.
    destruct (urlparse node_url) as [[netloc path]|e]; cbn; [|reflexivity].
    destruct (String.eqb netloc ""); cbn; [|reflexivity].
    destruct (String.eqb path ""); reflexivity.
  - rewrite <- Hchain. cbn [minted].
    destruct (py_eq_str sender MINING_SENDER) eqn:Hsender.
    + unfold add_transaction_to_current_array. rewrite Hsender. reflexivity.
    + rewrite add_transaction_from_wallet_frame by exact Hsender.
      now rewrite app_nil_r.
  - destruct self as [txs ch nd id]. cbn [chain] in Hchain. subst ch.
    reflexivity.
  - rewrite <- Hchain. unfold resolve_conflicts.
    now rewrite (resolve_conflicts_log_well_formed net Hwf).
Qed.

Lemma block_transactions_new_block number t txs nonce previous_hash :
  block_transactions (new_block number t txs nonce previous_hash) = txs.
Proof. reflexivity. Qed.

Lemma step_ledger_transactions now self c :
  well_formed now self ->
  ledger_transactions (step self c) = ledger_transactions self ++ minted c.
Proof.
  intros Hwf. destruct (step_ledger c Hwf) as (l & Hchain & Hstep).
  unfold ledger_transactions. rewrite Hchain.
  destruct c as [node_url t|sender recipient amt signature
                |nonce previous_hash t|net];
    cbn [step] in Hstep |- *;
    injection Hstep as Htxs Hch; rewrite Htxs, Hch; cbn [minted].
  - now rewrite app_nil_r.
  - now rewrite app_assoc.
  - rewrite flat_map_app. cbn [flat_map].
    rewrite block_transactions_new_block. now rewrite !app_nil_r.
  - now rewrite app_nil_r.
Qed.

(** X12.  No transaction is lost, duplicated or reordered, and none but
    minted ones is ever held: in every run, the transactions of the
    blocks of the chain followed by the pending ones are exactly the
    transactions handed over from the mint identity, in the order of the
    calls, whatever the calls that seal blocks, register nodes or
    resolve conflicts in between. *)
Theorem ledger_holds_minted_transactions :
  forall uuid now calls,
    ledger_transactions (run uuid now calls) = flat_map minted calls.
Proof.
  intros uuid now calls. unfold run.
  change (flat_map minted calls)
    with (ledger_transactions (init uuid now) ++ flat_map minted calls).
  pose proof (init_well_formed uuid now) as Hwf. revert Hwf.
  generalize (init uuid now).
  induction calls as [|c calls IH]; intros self Hwf.
  - cbn. now rewrite app_nil_r.
  - cbn [fold_left flat_map].
    rewrite (IH (step self c)) by now apply step_well_formed.
    rewrite (step_ledger_transactions c Hwf). now rewrite app_assoc.
Qed.

Lemma numbered_snoc l block :
  numbered_from_one l ->
  py_getitem block "block_number" = Ok (PInt (Z.of_nat (List.length l) + 1)) ->
  numbered_from_one (l ++ [block]).
Proof.
  intros Hl Hblock i b Hi.
  destruct (Nat.lt_ge_cases i (List.length l)) as [Hlt|Hge].
  - rewrite nth_error_app1 in Hi by exact Hlt. now apply Hl.
  - rewrite nth_error_app2 in Hi by exact Hge.
    destruct (i - List.length l)%nat as [|k] eqn:Hk.
    + cbn in Hi. injection Hi as <-.
      replace i with (List.length l) by lia. exact Hblock.
    + destruct k; discriminate Hi.
Qed.

Lemma step_numbered now self c l :
  well_formed now self ->
  chain self = PList l -> numbered_from_one l ->
  exists l', chain (step self c) = PList l' /\ numbered_from_one l'.
Proof.
  intros Hwf Hchain Hl.
  destruct (step_ledger c Hwf) as (l0 & Hchain0 & Hstep).
  rewrite Hchain in Hchain0. injection Hchain0 as <-.
  destruct c as [node_url t|sender recipient amt signature
                |nonce previous_hash t|net];
    cbn [step] in Hstep |- *;
    injection Hstep as _ Hch; rewrite Hch; eexists; split;
    try reflexivity; try exact Hl.
  now apply numbered_snoc.
Qed.

(** X13.  In every run the chain is a list whose blocks carry the
    numbers 1, 2, 3, ... in order: the block at index [i] has
    [block_number] [i + 1]. *)
Theorem chain_numbered_from_one :
  forall uuid now calls,
    exists l,
      chain (run uuid now calls) = PList l /\ numbered_from_one l.
Proof.
  intros uuid now calls. unfold run.
  assert (Hinit : exists l, chain (init uuid now) = PList l
                            /\ numbered_from_one l).
  { exists [genesis now]. split; [reflexivity|].
    intros [|[|i]] b Hb; try discriminate Hb.
    cbn in Hb. now injection Hb as <-. }
  pose proof (init_well_formed uuid now) as Hwf. revert Hwf Hinit.
  generalize (init uuid now).
  induction calls as [|c calls IH]; intros self Hwf Hself; [exact Hself|].
  cbn [fold_left]. apply IH; [now apply step_well_formed|].
  destruct Hself as (l & Hchain & Hl).
  exact (step_numbered c Hwf Hchain Hl).
Qed.

Lemma hash_serializable b :
  json_serializable b = true -> hash b = Ok (sha256_hexdigest (json_text b)).
Proof. intros Hb. unfold hash, json_dumps. now rewrite Hb. Qed.

Lemma step_serializable now self c l :
  well_formed now self ->
  json_call c = true ->
  chain self = PList l ->
  forallb json_serializable (transactions self) = true ->
  forallb json_serializable l = true ->
  exists l',
    chain (step self c) = PList l'
    /\ forallb json_serializable (transactions (step self c)) = true
    /\ forallb json_serializable l' = true.
Proof.
  intros Hwf Hcall Hchain Htxs Hl.
  destruct (step_ledger c Hwf) as (l0 & Hchain0 & Hstep).
  rewrite Hchain in Hchain0. injection Hchain0 as <-.
  destruct c as [node_url t|sender recipient amt signature
                |nonce previous_hash t|net];
    cbn [step] in Hstep |- *;
    injection Hstep as Ht Hch; rewrite Ht, Hch; eexists;
    (split; [reflexivity|]).
  - now split.
  - split; [|exact Hl]. rewrite forallb_app, Htxs. cbn [andb minted].
    destruct (py_eq_str sender MINING_SENDER) eqn:Hsender; [|reflexivity].
    apply py_eq_str_true in Hsender. subst sender.
    cbn [json_call] in Hcall. apply andb_prop in Hcall as [Hr Ha].
    cbn. now rewrite Hr, Ha.
  - split; [reflexivity|]. rewrite forallb_app, Hl.
    cbn [json_call] in Hcall. apply andb_prop in Hcall as [Hn Hp].
    cbn. now rewrite Htxs, Hn, Hp.
  - now split.
Qed.

Lemma scalar_serializable v : scalar v = true -> json_serializable v = true.
Proof. intros H. destruct v; try reflexivity; discriminate H. Qed.

Lemma scalar_call_json_call c : scalar_call c = true -> json_call c = true.
Proof.
  destruct c as [node_url t|sender recipient amt signature
                |nonce previous_hash t|net];
    cbn [scalar_call json_call]; intros H; try reflexivity;
    apply andb_prop in H as [H1 H2];
    now rewrite (scalar_serializable _ H1), (scalar_serializable _ H2).
Qed.

(** In a run whose calls carry JSON values, no block of the chain and no
    pending transaction holds bytes, a method or a hash object. *)
Lemma run_serializable uuid now calls :
  forallb json_call calls = true ->
  exists l,
    chain (run uuid now calls) = PList l
    /\ forallb json_serializable (transactions (run uuid now calls)) = true
    /\ forallb json_serializable l = true.
Proof.
  intros Hcalls. unfold run.
  assert (Hinit : exists l,
             chain (init uuid now) = PList l
             /\ forallb json_serializable (transactions (init uuid now))
                = true
             /\ forallb json_serializable l = true)
    by (exists [genesis now]; repeat split).
  pose proof (init_well_formed uuid now) as Hwf. revert Hwf Hinit.
  generalize (init uuid now).
  induction calls as [|c calls IH]; intros self Hwf Hself; [exact Hself|].
  cbn [forallb] in Hcalls. apply andb_prop in Hcalls as [Hc Hcalls].
  cbn [fold_left]. apply (IH Hcalls); [now apply step_well_formed|].
  destruct Hself as (l & Hchain & Htxs & Hl).
  exact (step_serializable c Hwf Hc Hchain Htxs Hl).
Qed.

(** X16.  As long as the recipients and amounts handed over and the
    nonces and previous hashes sealed are scalars ([None], a [bool], a
    [float], a [str], or an [int] within the digits CPython prints),
    every block of the chain can be hashed: [hash] returns on each, so
    the hash of the last block that the next sealing needs is always
    there. *)
Theorem chain_stays_hashable :
  forall uuid now calls,
    forallb scalar_call calls = true ->
    exists l,
      chain (run uuid now calls) = PList l
      /\ forall b, In b l -> hash b = Ok (sha256_hexdigest (json_text b)).
Proof.
  intros uuid now calls Hcalls.
  assert (Hjson : forallb json_call calls = true).
  { rewrite forallb_forall in Hcalls. apply forallb_forall.
    intros c Hc. apply scalar_call_json_call. now apply Hcalls. }
  destruct (run_serializable uuid now calls Hjson) as (l & Hchain & _ & Hl).
  exists l. split; [exact Hchain|].
  intros b Hb. apply hash_serializable.
  rewrite forallb_forall in Hl. now apply Hl.
Qed.

(** The object after sealing: its last block is the new block and its
    chain is one longer. *)
Lemma last_block_after_sealing_aux txs l nd id nonce previous_hash now :
  let block :=
    new_block (Z.of_nat (List.length l) + 1) now txs nonce previous_hash in
  let sealed :=
    create_block_and_add_to_chain nonce previous_hash now
      {| transactions := txs; chain := PList l; nodes := nd; node_id := id |} in
  last_block (snd sealed) = Ok block
  /\ py_len (chain (snd sealed)) = Ok (Z.of_nat (List.length l) + 1).
Proof.
  intros block sealed. subst sealed. split.
  - change (py_index (PList (l ++ [block])) (-1) = Ok block).
    destruct l as [|x l]; [reflexivity|].
    cbn [app]. rewrite py_index_last. now rewrite last_last.
  - change (py_len (PList (l ++ [block])) = Ok (Z.of_nat (List.length l) + 1)).
    cbn [py_len]. rewrite length_app. cbn [List.length]. f_equal. lia.
Qed.

(** X14.  After [create_block_and_add_to_chain] on a chain of blocks,
    [last_block] returns the block the call returned, and the number of
    that block is the length of the chain. *)
Theorem last_block_after_sealing :
  forall txs l nd id nonce previous_hash now,
    let sealed :=
      create_block_and_add_to_chain nonce previous_hash now
        {| transactions := txs; chain := PList l; nodes := nd; node_id := id |} in
    exists block n,
      fst sealed = Ok block
      /\ last_block (snd sealed) = Ok block
      /\ py_len (chain (snd sealed)) = Ok n
      /\ py_getitem block "block_number" = Ok (PInt n).
Proof.
  intros txs l nd id nonce previous_hash now sealed.
  destruct (last_block_after_sealing_aux txs l nd id nonce previous_hash now)
    as [Hlast Hlen].
  exists (new_block (Z.of_nat (List.length l) + 1) now txs nonce previous_hash),
    (Z.of_nat (List.length l) + 1).
  subst sealed. split; [reflexivity|]. split; [exact Hlast|].
  split; [exact Hlen|reflexivity].
Qed.

(** X17.  The number [add_transaction_to_current_array] returns for a
    minted transaction is the number of the block the next sealing
    builds, and that block holds the pending transactions with the new
    one last. *)
Theorem minted_transaction_lands_in_announced_block :
  forall recipient amount signature txs l nd id nonce previous_hash now,
    let added :=
      add_transaction_to_current_array (PStr MINING_SENDER) recipient amount
        signature
        {| transactions := txs; chain := PList l; nodes := nd; node_id := id |} in
    let sealed :=
      create_block_and_add_to_chain nonce previous_hash now (snd added) in
    exists n block,
      fst added = Ok (PInt n)
      /\ fst sealed = Ok block
      /\ py_getitem block "block_number" = Ok (PInt n)
      /\ block_transactions block =
         txs ++ [POrderedDict [("sender_address", PStr MINING_SENDER);
                               ("recipient_address", recipient);
                               ("amount", amount)]].
Proof.
  intros recipient amt signature txs l nd id nonce previous_hash now added sealed.
  exists (Z.of_nat (List.length l) + 1),
    (new_block (Z.of_nat (List.length l) + 1) now
       (txs ++ [POrderedDict [("sender_address", PStr MINING_SENDER);
                              ("recipient_address", recipient);
                              ("amount", amt)]])
       nonce previous_hash).
  repeat split.
Qed.

(** The clock reading of a Transaction plays no part in its
    signature: two transactions with the same sender, key, recipient and
    amount are signed alike whenever they were created. *)
Lemma sign_transaction_ignores_timestamp :
  forall sender key recipient amt t t',
    sign_transaction
      {| sender_address := sender; sender_private_key := key;
         recipient_address := recipient; timestamp := t; amount := amt |} =
    sign_transaction
      {| sender_address := sender; sender_private_key := key;
         recipient_address := recipient; timestamp := t'; amount := amt |}.
Proof. intros. reflexivity. Qed.

(** X15.  An attribute that the ordinary lookup does not find on a
    Transaction is never delivered by [__getattr__]: no [data] attribute
    exists, so the access to [self.data] inside it asks [__getattr__]
    again, and the access has not come back at any depth of calls. *)
Theorem transaction_getattr_never_returns :
  forall found depth attr,
    found "data" = None ->
    found attr = None ->
    getattr found depth attr = None.
Proof.
  intros found depth. induction depth as [|depth IH]; intros attr Hdata Hattr.
  - cbn [getattr]. now rewrite Hattr.
  - cbn [getattr]. rewrite Hattr. now rewrite (IH "data" Hdata Hdata).
Qed.

End Ledger.

Lemma chain_stays_hashable_witness :
  forallb scalar_call
    [Add_transaction (PStr MINING_SENDER) (PStr "c0ffee")
       (PFloat MINING_REWARD) (PStr "");
     Create_block (PInt 1999) (PStr "66") 2.5%float] = true
  /\ exists l,
       chain (run (RT := Sample.runtime) "c0ffee" 1.5%float
                [Add_transaction (PStr MINING_SENDER) (PStr "c0ffee")
                   (PFloat MINING_REWARD) (PStr "");
                 Create_block (PInt 1999) (PStr "66") 2.5%float]) = PList l
       /\ forall b, In b l ->
            hash (RT := Sample.runtime) b =
            Ok (@sha256_hexdigest Sample.runtime (@json_text Sample.runtime b)).
Proof.
  assert (Hcalls : forallb scalar_call
            [Add_transaction (PStr MINING_SENDER) (PStr "c0ffee")
               (PFloat MINING_REWARD) (PStr "");
             Create_block (PInt 1999) (PStr "66") 2.5%float] = true)
    by (vm_compute; reflexivity).
  split; [exact Hcalls|].
  apply (chain_stays_hashable (RT := Sample.runtime)). exact Hcalls.
Defined.

Lemma transaction_getattr_never_returns_witness :
  let t := {| sender_address := PStr "alice"; sender_private_key := PStr "00";
              recipient_address := PStr "bob"; timestamp := 1.5%float;
              amount := PInt 3 |} in
  transaction_attribute t "data" = None
  /\ transaction_attribute t "value" = None
  /\ getattr (transaction_attribute t) 1000 "value" = None.
Proof.
  intros t. split; [reflexivity|]. split; [reflexivity|].
  apply transaction_getattr_never_returns; reflexivity.
Defined.

(** ** Cutting a chain, and blocks that cannot be hashed *)

Section Cut.

Context {RT : Runtime}.

Lemma links_app more :
  forall rest first,
    links first (rest ++ more) =
    (ok <- links first rest ;;
     if ok then links (last rest first) more else Ok false).
Proof.
  induction rest as [|b rest IH]; intros first.
  - cbn [app links rbind last]. reflexivity.
  - cbn [app links]. rewrite IH, last_cons_default.
    destruct (check_block first b) as [[|]|e]; reflexivity.
Qed.

(** X19.  [valid_chain] decides a chain piece by piece: its answer on a
    chain cut after any block is its answer on the part up to that
    block, and when that answer is true, its answer on the part from
    that block on.  So a failure, false or an exception, in a part stands
    for every chain that continues it, and every part of a chain that
    validates does so. *)
Theorem valid_chain_cut :
  forall first rest more,
    valid_chain (PList (first :: rest ++ more)) =
    (ok <- valid_chain (PList (first :: rest)) ;;
     if ok then valid_chain (PList (last rest first :: more)) else Ok false).
Proof.
  intros first rest more. rewrite !valid_chain_links. apply links_app.
Qed.

(** X18.  A minted transaction is admitted whatever its amount is, and
    when the amount holds bytes, a method or a hash object, which are no
    JSON values, the block sealed next cannot be hashed: [hash] raises
    on the last block, so no later block can be linked to it. *)
Theorem unhashable_amount_blocks_chain :
  forall recipient amount signature txs l nd id nonce previous_hash now,
    json_serializable amount = false ->
    let added :=
      add_transaction_to_current_array (PStr MINING_SENDER) recipient amount
        signature
        {| transactions := txs; chain := PList l; nodes := nd; node_id := id |} in
    let sealed :=
      create_block_and_add_to_chain nonce previous_hash now (snd added) in
    exists n block,
      fst added = Ok (PInt n)
      /\ last_block (snd sealed) = Ok block
      /\ raises (hash block).
Proof.
  intros recipient amt signature txs l nd id nonce previous_hash now Hamt
    added sealed.
  destruct (last_block_after_sealing_aux
              (txs ++ [POrderedDict [("sender_address", PStr MINING_SENDER);
                                     ("recipient_address", recipient);
                                     ("amount", amt)]])
              l nd id nonce previous_hash now) as [Hlast _].
  exists (Z.of_nat (List.length l) + 1),
    (new_block (Z.of_nat (List.length l) + 1) now
       (txs ++ [POrderedDict [("sender_address", PStr MINING_SENDER);
                              ("recipient_address", recipient);
                              ("amount", amt)]])
       nonce previous_hash).
  split; [reflexivity|]. split; [exact Hlast|].
  exists TypeError. unfold hash, json_dumps.
  replace (json_serializable _) with false; [reflexivity|].
  symmetry. cbn [new_block json_serializable forallb andb].
  rewrite forallb_app. cbn [forallb json_serializable andb].
  rewrite Hamt. now rewrite !andb_false_r.
Qed.

End Cut.

Lemma unhashable_amount_blocks_chain_witness :
  json_serializable (PBytes "3") = false
  /\ exists n block,
       fst (add_transaction_to_current_array (RT := Sample.runtime)
              (PStr MINING_SENDER) (PStr "c0ffee") (PBytes "3") (PStr "")
              (init "c0ffee" 1.5%float)) = Ok (PInt n)
       /\ last_block
            (snd (create_block_and_add_to_chain (PInt 1999) (PStr "66")
                    2.5%float
                    (snd (add_transaction_to_current_array
                            (RT := Sample.runtime)
                            (PStr MINING_SENDER) (PStr "c0ffee") (PBytes "3")
                            (PStr "") (init "c0ffee" 1.5%float)))))
          = Ok block
       /\ raises (hash (RT := Sample.runtime) block).
Proof.
  split; [reflexivity|].
  apply (unhashable_amount_blocks_chain (RT := Sample.runtime)
           (PStr "c0ffee") (PBytes "3") (PStr "") [] [genesis 1.5%float] []
           "c0ffee" (PInt 1999) (PStr "66") 2.5%float).
  reflexivity.
Defined.
